(** * Array2D: a windowed raster container

    A shallow embedding of [libs/common/Array2D.hpp]: the [Array2D<T>] class
    template, its coordinate conversions, bulk mutators, equality, the cached
    data-cell count, the native binary format and the GDAL load/save paths.

    Conventions.
    - A C++ [int] is a [Z]; every arithmetic operator on [int] is followed by
      [wrap_int], the two's-complement wrap-around of a 32-bit machine.
      Theorems whose statement depends on the absence of overflow say so.
    - A [double] is an IEEE binary64 number ([PrimFloat.float]).
    - A [std::vector<T>] is a [list T]; [v[i]] outside the vector is
      undefined behaviour and is reported as [Undefined].
    - A member function that can fail returns an [outcome]. *)

From Stdlib Require Import ZArith Lia List String Strings.Byte.
From Stdlib Require Import Floats.PrimFloat Numbers.Cyclic.Int63.Uint63.
From stdpp Require Import base list list_numbers strings.

Local Open Scope Z_scope.

(** ** Machine integers *)

Definition INT_MIN : Z := -2147483648.
Definition INT_MAX : Z := 2147483647.

Definition in_int (z : Z) : Prop := INT_MIN <= z <= INT_MAX.

Definition wrap_int (z : Z) : Z :=
  (z + 2147483648) mod 4294967296 - 2147483648.

Definition int_add (x y : Z) : Z := wrap_int (x + y).
Definition int_sub (x y : Z) : Z := wrap_int (x - y).
Definition int_mul (x y : Z) : Z := wrap_int (x * y).

(** ** Doubles *)

Definition double : Type := float.

(** The conversion of an [int] to [double] (exact on 32-bit integers). *)
Definition double_of_int (z : Z) : double :=
  if z <? 0 then PrimFloat.opp (PrimFloat.of_uint63 (Uint63.of_Z (- z)))
  else PrimFloat.of_uint63 (Uint63.of_Z z).

(** ** Outcomes of a call *)

Inductive outcome (A : Type) : Type :=
| Returns (v : A)              (* normal completion *)
| Throws (what : string)       (* an exception leaves the call *)
| Aborts                       (* an [assert] failed *)
| Undefined.                   (* behaviour the language leaves undefined *)

Arguments Returns {A} v.
Arguments Throws {A} what.
Arguments Aborts {A}.
Arguments Undefined {A}.

#[global] Instance outcome_ret : MRet outcome := fun A v => Returns v.

#[global] Instance outcome_bind : MBind outcome := fun A B f m =>
  match m with
  | Returns v => f v
  | Throws what => Throws what
  | Aborts => Aborts
  | Undefined => Undefined
  end.

(** [for (int i = ...; ...; i++) body], over the values [i] takes. *)
Fixpoint for_each {S : Type} (idx : list Z) (body : Z -> S -> outcome S)
    (s : S) : outcome S :=
  match idx with
  | [] => Returns s
  | i :: rest => s' ← body i s; for_each rest body s'
  end.

(** ** Vectors *)

Definition vec_index {A : Type} (v : list A) (i : Z) : bool :=
  (0 <=? i) && (i <? Z.of_nat (length v)).

(** [v[i]] as an rvalue. *)
Definition vec_load {A : Type} (v : list A) (i : Z) : outcome A :=
  if vec_index v i then
    match v !! Z.to_nat i with Some x => Returns x | None => Undefined end
  else Undefined.

(** [v[i] = x]. *)
Definition vec_store {A : Type} (v : list A) (i : Z) (x : A)
    : outcome (list A) :=
  if vec_index v i then Returns (<[Z.to_nat i := x]> v) else Undefined.

(** The [len] elements at [v.data() + off], read as one block. *)
Definition vec_block {A : Type} (v : list A) (off len : Z)
    : outcome (list A) :=
  if (0 <=? off) && (0 <=? len) && (off + len <=? Z.of_nat (length v))
  then Returns (take (Z.to_nat len) (drop (Z.to_nat off) v))
  else Undefined.

(** A block written at [v.data() + off]. *)
Definition vec_store_block {A : Type} (v : list A) (off : Z) (blk : list A)
    : outcome (list A) :=
  if (0 <=? off) && (off + Z.of_nat (length blk) <=? Z.of_nat (length v))
  then Returns (take (Z.to_nat off) v ++ blk
                ++ drop (Z.to_nat off + length blk) v)
  else Undefined.

(** ** Element types *)

Inductive GDALDataType : Set :=
| GDT_Unknown | GDT_Byte | GDT_UInt16 | GDT_Int16
| GDT_UInt32 | GDT_Int32 | GDT_Float32 | GDT_Float64.

Inductive ctype : Set :=
| c_uint8_t | c_uint16_t | c_int16_t | c_uint32_t | c_int32_t
| c_float | c_double | c_other.

(** What the class template uses of its parameter [T]: [operator==] (with
    [!=] its negation), the value-initialised [T()], and [typeid(T)]. *)
Class Elem (T : Type) : Type := {
  elem_eqb : T -> T -> bool;
  elem_default : T;
  elem_ctype : ctype
}.

(** The object representation of a [T]: [sizeof(T)] bytes. *)
Class NativeRepr (T : Type) : Type := {
  sizeof_T : nat;
  to_bytes : T -> list byte;
  of_bytes : list byte -> T
}.

Class NativeReprLaws (T : Type) `{NativeRepr T} : Prop := {
  to_bytes_length : forall x : T, length (to_bytes x) = sizeof_T;
  of_to_bytes : forall x : T, of_bytes (to_bytes x) = x
}.

Definition NativeTypeToGDAL (t : ctype) : outcome GDALDataType :=
  match t with
  | c_uint8_t => Returns GDT_Byte
  | c_uint16_t => Returns GDT_UInt16
  | c_int16_t => Returns GDT_Int16
  | c_uint32_t => Returns GDT_UInt32
  | c_int32_t => Returns GDT_Int32
  | c_float => Returns GDT_Float32
  | c_double => Returns GDT_Float64
  | c_other => Aborts
  end.

(** ** Bytes of an [int] (little-endian, two's complement) *)

Definition byte_of_Z (z : Z) : byte :=
  match Byte.of_N (Z.to_N (z mod 256)) with
  | Some b => b
  | None => x00
  end.

Definition Z_of_byte (b : byte) : Z := Z.of_N (Byte.to_N b).

Definition int_to_bytes (z : Z) : list byte :=
  [byte_of_Z z; byte_of_Z (z / 256); byte_of_Z (z / 65536);
   byte_of_Z (z / 16777216)].

Definition int_of_bytes (bs : list byte) : Z :=
  match bs with
  | [b0; b1; b2; b3] =>
      wrap_int (Z_of_byte b0 + 256 * Z_of_byte b1 + 65536 * Z_of_byte b2
                + 16777216 * Z_of_byte b3)
  | _ => 0
  end.

(** ** The class *)

Record Array2D (T : Type) : Type := mkArray2D {
  filename : string;
  basename : string;
  geotransform : list double;
  projection : string;
  data : list T;
  data_type : GDALDataType;
  total_height : Z;
  total_width : Z;
  view_height : Z;
  view_width : Z;
  view_xoff : Z;
  view_yoff : Z;
  num_data_cells : Z;
  no_data : T
}.

Arguments mkArray2D {T}.
Arguments filename {T} _.
Arguments basename {T} _.
Arguments geotransform {T} _.
Arguments projection {T} _.
Arguments data {T} _.
Arguments data_type {T} _.
Arguments total_height {T} _.
Arguments total_width {T} _.
Arguments view_height {T} _.
Arguments view_width {T} _.
Arguments view_xoff {T} _.
Arguments view_yoff {T} _.
Arguments num_data_cells {T} _.
Arguments no_data {T} _.

(** ** Field updates *)

Section Setters.
Context {T : Type}.
Implicit Type a : Array2D T.

Definition set_geotransform a (g : list double) : Array2D T :=
  mkArray2D (filename a) (basename a) g (projection a) (data a)
    (data_type a) (total_height a) (total_width a) (view_height a)
    (view_width a) (view_xoff a) (view_yoff a) (num_data_cells a)
    (no_data a).

Definition set_projection a (p : string) : Array2D T :=
  mkArray2D (filename a) (basename a) (geotransform a) p (data a)
    (data_type a) (total_height a) (total_width a) (view_height a)
    (view_width a) (view_xoff a) (view_yoff a) (num_data_cells a)
    (no_data a).

Definition set_data a (d : list T) : Array2D T :=
  mkArray2D (filename a) (basename a) (geotransform a) (projection a) d
    (data_type a) (total_height a) (total_width a) (view_height a)
    (view_width a) (view_xoff a) (view_yoff a) (num_data_cells a)
    (no_data a).

Definition set_data_type a (t : GDALDataType) : Array2D T :=
  mkArray2D (filename a) (basename a) (geotransform a) (projection a)
    (data a) t (total_height a) (total_width a) (view_height a)
    (view_width a) (view_xoff a) (view_yoff a) (num_data_cells a)
    (no_data a).

Definition set_total_height a (z : Z) : Array2D T :=
  mkArray2D (filename a) (basename a) (geotransform a) (projection a)
    (data a) (data_type a) z (total_width a) (view_height a)
    (view_width a) (view_xoff a) (view_yoff a) (num_data_cells a)
    (no_data a).

Definition set_total_width a (z : Z) : Array2D T :=
  mkArray2D (filename a) (basename a) (geotransform a) (projection a)
    (data a) (data_type a) (total_height a) z (view_height a)
    (view_width a) (view_xoff a) (view_yoff a) (num_data_cells a)
    (no_data a).

Definition set_view_height a (z : Z) : Array2D T :=
  mkArray2D (filename a) (basename a) (geotransform a) (projection a)
    (data a) (data_type a) (total_height a) (total_width a) z
    (view_width a) (view_xoff a) (view_yoff a) (num_data_cells a)
    (no_data a).

Definition set_view_width a (z : Z) : Array2D T :=
  mkArray2D (filename a) (basename a) (geotransform a) (projection a)
    (data a) (data_type a) (total_height a) (total_width a)
    (view_height a) z (view_xoff a) (view_yoff a) (num_data_cells a)
    (no_data a).

Definition set_view_xoff a (z : Z) : Array2D T :=
  mkArray2D (filename a) (basename a) (geotransform a) (projection a)
    (data a) (data_type a) (total_height a) (total_width a)
    (view_height a) (view_width a) z (view_yoff a) (num_data_cells a)
    (no_data a).

Definition set_view_yoff a (z : Z) : Array2D T :=
  mkArray2D (filename a) (basename a) (geotransform a) (projection a)
    (data a) (data_type a) (total_height a) (total_width a)
    (view_height a) (view_width a) (view_xoff a) z (num_data_cells a)
    (no_data a).

Definition set_num_data_cells a (z : Z) : Array2D T :=
  mkArray2D (filename a) (basename a) (geotransform a) (projection a)
    (data a) (data_type a) (total_height a) (total_width a)
    (view_height a) (view_width a) (view_xoff a) (view_yoff a) z
    (no_data a).

Definition set_no_data a (v : T) : Array2D T :=
  mkArray2D (filename a) (basename a) (geotransform a) (projection a)
    (data a) (data_type a) (total_height a) (total_width a)
    (view_height a) (view_width a) (view_xoff a) (view_yoff a)
    (num_data_cells a) v.
End Setters.

(** ** The raster library, as far as the class talks to it *)

(** The six coefficients [GetGeoTransform] stores. *)
Record GeoTransform : Type := mkGeoTransform {
  gt0 : double; gt1 : double; gt2 : double;
  gt3 : double; gt4 : double; gt5 : double
}.

Definition gt_list (g : GeoTransform) : list double :=
  [gt0 g; gt1 g; gt2 g; gt3 g; gt4 g; gt5 g].

(** An opened dataset and its band 1. [gd_geotransform] is [None] when
    [GetGeoTransform] does not answer [CE_None]; [gd_nodata] is
    [GetNoDataValue()] as converted to [T] by the assignment to [no_data];
    [gd_read_row xoff y width] is what
    [RasterIO(GF_Read, xoff, y, width, 1, ...)] stores in the buffer, [None]
    when it does not answer [CE_None]. *)
Record GDALDataset (T : Type) : Type := mkGDALDataset {
  gd_geotransform : option GeoTransform;
  gd_projection : string;
  gd_band_type : GDALDataType;
  gd_xsize : Z;
  gd_ysize : Z;
  gd_nodata : T;
  gd_read_row : Z -> Z -> Z -> option (list T)
}.

Arguments mkGDALDataset {T}.
Arguments gd_geotransform {T} _.
Arguments gd_projection {T} _.
Arguments gd_band_type {T} _.
Arguments gd_xsize {T} _.
Arguments gd_ysize {T} _.
Arguments gd_nodata {T} _.
Arguments gd_read_row {T} _ _ _ _.

(** The dataset [saveGDAL] creates: the arguments of [Create], then what
    [SetNoDataValue], [SetGeoTransform], [SetProjection] and the row writes
    received. *)
Record GDALOutput (T : Type) : Type := mkGDALOutput {
  out_width : Z;
  out_height : Z;
  out_type : GDALDataType;
  out_nodata : T;
  out_geotransform : list double;
  out_projection : string;
  out_rows : list (list T)
}.

Arguments mkGDALOutput {T}.
Arguments out_width {T} _.
Arguments out_height {T} _.
Arguments out_type {T} _.
Arguments out_nodata {T} _.
Arguments out_geotransform {T} _.
Arguments out_projection {T} _.
Arguments out_rows {T} _.

(** ** Binary input streams *)

Record istream : Type := mkIstream {
  is_good : bool;
  is_rest : list byte
}.

(** [fin.read(p, n)] where the [n] bytes at [p] hold [old]: the bytes the
    stream still has are stored; when they are fewer than [n] the rest of
    [old] stays and the stream fails; a failed stream stores nothing. *)
Definition stream_read (n : nat) (old : list byte) (s : istream)
    : list byte * istream :=
  if is_good s then
    let got := take n (is_rest s) in
    (got ++ drop (length got) old,
     mkIstream (Nat.eqb (length got) n) (drop n (is_rest s)))
  else (old, s).

Definition read_int (old : Z) (s : istream) : Z * istream :=
  let '(bs, s') := stream_read 4 (int_to_bytes old) s in
  (int_of_bytes bs, s').

(** ** Member functions *)

Section Members.
Context {T : Type} `{Elem T}.
Implicit Type a o : Array2D T.

(** [Array2D()]. The constructor leaves [no_data] and [data_type]
    uninitialised: [nd0] and [dt0] are what the object happens to hold. *)
Definition Array2D_new (nd0 : T) (dt0 : GDALDataType) : Array2D T :=
  mkArray2D "" "" [] "" [] dt0 0 0 0 0 0 0 (-1) nd0.

Definition viewSize a : Z := int_mul (view_width a) (view_height a).
Definition totalWidth a : Z := total_width a.
Definition totalHeight a : Z := total_height a.
Definition viewWidth a : Z := view_width a.
Definition viewHeight a : Z := view_height a.
Definition viewXoff a : Z := view_xoff a.
Definition viewYoff a : Z := view_yoff a.
Definition empty a : bool :=
  match data a with [] => true | _ :: _ => false end.
Definition noData a : T := no_data a.

Definition myGDALType : outcome GDALDataType :=
  NativeTypeToGDAL elem_ctype.

(** [x = i % view_width; y = i / view_width]: the pair [(x, y)].
    Division by zero and [INT_MIN / -1] are undefined. *)
Definition iToxy a (i : Z) : outcome (Z * Z) :=
  if (view_width a =? 0) || ((i =? INT_MIN) && (view_width a =? -1))
  then Undefined
  else Returns (Z.rem i (view_width a), Z.quot i (view_width a)).

Definition xyToI a (x y : Z) : Z :=
  int_add (int_mul y (view_width a)) x.

Definition nToI a (i dx dy : Z) : outcome Z :=
  if (view_width a =? 0) || ((i =? INT_MIN) && (view_width a =? -1))
  then Undefined
  else
    let x := int_add (Z.rem i (view_width a)) dx in
    let y := int_add (Z.quot i (view_width a)) dy in
    if (x <? 0) || (y <? 0) || (x =? view_width a) || (y =? view_height a)
    then Returns (-1)
    else Returns (xyToI a x y).

(** [operator==]: the cell loop, left at the first difference. *)
Fixpoint equal_cells (d od : list T) (idx : list Z) : outcome bool :=
  match idx with
  | [] => Returns true
  | i :: rest =>
      x ← vec_load d i;
      y ← vec_load od i;
      if negb (elem_eqb x y) then Returns false
      else equal_cells d od rest
  end.

Definition equals a o : outcome bool :=
  if negb (viewWidth a =? viewWidth o) || negb (viewHeight a =? viewHeight o)
  then Returns false
  else if negb (elem_eqb (noData a) (noData o)) then Returns false
  else equal_cells (data a) (data o)
         (seqZ 0 (int_mul (view_width a) (view_height a))).

Definition isNoData a (x y : Z) : outcome bool :=
  v ← vec_load (data a) (xyToI a x y);
  Returns (elem_eqb v (no_data a)).

Definition in_grid a (x y : Z) : bool :=
  (0 <=? x) && (x <? view_width a) && (0 <=? y) && (y <? view_height a).

Definition setNoData a (ndval : T) : Array2D T := set_no_data a ndval.

Definition setAll a (val : T) : Array2D T :=
  set_data a (replicate (length (data a)) val).

Definition init a (val : T) : Array2D T := setAll a val.

(** [resize(width, height, val)]. A negative [width*height] converts to a
    [size_t] above [max_size()], and [data.resize] throws
    [std::length_error]; running out of memory is not modelled. *)
Definition resize a (width height : Z) (val : T) : outcome (Array2D T) :=
  let n := int_mul width height in
  if n <? 0 then Throws "std::length_error"
  else
    let a := set_data a (replicate (Z.to_nat n) val) in
    let a := set_view_height a height in
    let a := set_total_height a height in
    let a := set_view_width a width in
    let a := set_total_width a width in
    Returns a.

(** [Array2D(width, height, val)]. *)
Definition Array2D_sized (nd0 : T) (dt0 : GDALDataType)
    (width height : Z) (val : T) : outcome (Array2D T) :=
  resize (Array2D_new nd0 dt0) width height val.

Definition countDataCells a : Array2D T :=
  set_num_data_cells a
    (foldl (fun n i => if negb (elem_eqb i (no_data a)) then int_add n 1
                       else n) 0 (data a)).

(** [numDataCells()] on a non-const object: the object after the call and
    the value returned. *)
Definition numDataCells a : Array2D T * Z :=
  let a' := if num_data_cells a =? -1 then countDataCells a else a in
  (a', num_data_cells a').

Definition numDataCells_const a : Z := num_data_cells a.

(** [a(i)] read. *)
Definition cell_i a (i : Z) : outcome T :=
  if negb (i >=? 0) then Aborts
  else if negb (i <? int_mul (view_width a) (view_height a)) then Aborts
  else vec_load (data a) i.

(** [a(i) = v]. *)
Definition set_cell_i a (i : Z) (v : T) : outcome (Array2D T) :=
  if negb (i >=? 0) then Aborts
  else if negb (i <? int_mul (view_width a) (view_height a)) then Aborts
  else d ← vec_store (data a) i v; Returns (set_data a d).

(** [a(x, y)] read. *)
Definition cell_xy a (x y : Z) : outcome T :=
  if negb (x >=? 0) then Aborts
  else if negb (y >=? 0) then Aborts
  else if negb (x <? view_width a) then Aborts
  else if negb (y <? view_height a) then Aborts
  else vec_load (data a) (xyToI a x y).

(** [a(x, y) = v]. *)
Definition set_cell_xy a (x y : Z) (v : T) : outcome (Array2D T) :=
  if negb (x >=? 0) then Aborts
  else if negb (y >=? 0) then Aborts
  else if negb (x <? view_width a) then Aborts
  else if negb (y <? view_height a) then Aborts
  else d ← vec_store (data a) (xyToI a x y) v; Returns (set_data a d).

Definition setRow a (y : Z) (val : T) : outcome (Array2D T) :=
  d ← for_each (seqZ 0 (view_width a))
        (fun x d =>
           vec_store d (int_add (int_mul y (view_width a)) x) val)
        (data a);
  Returns (set_data a d).

Definition setCol a (x : Z) (val : T) : outcome (Array2D T) :=
  d ← for_each (seqZ 0 (view_height a))
        (fun y d =>
           vec_store d (int_add (int_mul y (view_width a)) x) val)
        (data a);
  Returns (set_data a d).

Definition clear a : Array2D T := set_data a [].

Definition isEdgeCell a (x y : Z) : bool :=
  (x =? 0) || (y =? 0) || (x =? int_sub (view_width a) 1)
  || (y =? int_sub (view_height a) 1).

Definition getCellArea a : outcome double :=
  g1 ← vec_load (geotransform a) 1;
  g5 ← vec_load (geotransform a) 5;
  Returns (PrimFloat.mul g1 g5).

(** [loadGDAL]. [fin] is what [GDALOpen] answered. *)
Definition loadGDAL a (fin : option (GDALDataset T))
    (xOffset yOffset part_width part_height : Z) : outcome (Array2D T) :=
  if negb (empty a) then Aborts
  else if negb (xOffset >=? 0) then Aborts
  else if negb (yOffset >=? 0) then Aborts
  else
    match fin with
    | None => Throws "Could not open a GDAL file!"
    | Some fin =>
        match gd_geotransform fin with
        | None => Throws "Error getting geotransform!"
        | Some gt =>
            let a := set_geotransform a (gt_list gt) in
            let a := set_projection a (gd_projection fin) in
            let a := set_data_type a (gd_band_type fin) in
            let a := set_total_width a (gd_xsize fin) in
            let a := set_total_height a (gd_ysize fin) in
            let a := set_no_data a (gd_nodata fin) in
            let part_width :=
              if int_add xOffset part_width >=? total_width a
              then int_sub (total_width a) xOffset else part_width in
            let part_height :=
              if int_add yOffset part_height >=? total_height a
              then int_sub (total_height a) yOffset else part_height in
            let part_width :=
              if part_width =? 0 then total_width a else part_width in
            let a := set_view_width a part_width in
            let part_height :=
              if part_height =? 0 then total_height a else part_height in
            let a := set_view_height a part_height in
            let a := set_view_xoff a xOffset in
            let a := set_view_yoff a yOffset in
            a ← resize a (view_width a) (view_height a) elem_default;
            d ← for_each
                  (seqZ yOffset
                     (int_add yOffset (view_height a) - yOffset))
                  (fun y d =>
                     match gd_read_row fin xOffset y (view_width a) with
                     | Some row =>
                         vec_store_block d
                           (int_mul (int_sub y yOffset) (view_width a)) row
                     | None => Throws "Error reading file with GDAL!"
                     end)
                  (data a);
            Returns (set_data a d)
        end
    end.

(** [saveGDAL]. [driver] and [created] say whether [GetDriverByName] and
    [Create] answered a non-null pointer, [row_ok y] whether the write of
    row [y] answered [CE_None]. *)
Definition saveGDAL a (driver created : bool) (row_ok : Z -> bool)
    (xoffset yoffset : Z) : outcome (GDALOutput T) :=
  if negb driver then Throws "Could not load GTiff driver!"
  else
    ty ← myGDALType;
    if negb created then Throws "Could not open output file!"
    else
      let out := geotransform a in
      g1 ← vec_load (geotransform a) 1;
      o0 ← vec_load out 0;
      out ← vec_store out 0
              (PrimFloat.add o0 (PrimFloat.mul (double_of_int xoffset) g1));
      g5 ← vec_load (geotransform a) 5;
      o3 ← vec_load out 3;
      out ← vec_store out 3
              (PrimFloat.add o3 (PrimFloat.mul (double_of_int yoffset) g5));
      written ← vec_block out 0 6;
      rows ← for_each (seqZ 0 (view_height a))
               (fun y rows =>
                  row ← vec_block (data a) (int_mul y (view_width a))
                          (view_width a);
                  _ ← myGDALType;
                  if row_ok y then Returns (rows ++ [row])
                  else Throws "Error saving file with GDAL!")
               [];
      Returns (mkGDALOutput (viewWidth a) (viewHeight a) ty (no_data a)
                 written (projection a) rows).
End Members.

(** [a = o] between two arrays of one element type: the implicitly
    declared copy assignment, which assigns every member of [o] to [a].
    (The class also declares a template [operator=] taking an
    [Array2D<U>]; a template is never the copy assignment operator, and
    since it is declared to return [T&] and ends in [return *this] it is
    ill-formed once instantiated, so no call of it is embedded.) *)
Definition copy_assign {T : Type} (a o : Array2D T) : Array2D T := o.

(** [resize(other, val)]. *)
Definition resize_like {T U : Type} `{Elem T} (a : Array2D T)
    (other : Array2D U) (val : T) : outcome (Array2D T) :=
  a ← resize a (view_width other) (view_height other) val;
  Returns (set_geotransform a (geotransform other)).

(** ** The native format *)

Section Native.
Context {T : Type} `{Elem T} `{NativeRepr T}.
Implicit Type a : Array2D T.

(** The bytes of consecutive elements, and the elements of consecutive
    [sizeof(T)]-byte groups. *)
Definition encode_block (l : list T) : list byte :=
  concat (map to_bytes l).

Fixpoint decode_block (n : nat) (bs : list byte) : list T :=
  match n with
  | O => []
  | S k => of_bytes (take sizeof_T bs) :: decode_block k (drop sizeof_T bs)
  end.

Definition read_T (old : T) (s : istream) : T * istream :=
  let '(bs, s') := stream_read sizeof_T (to_bytes old) s in
  (of_bytes bs, s').

(** [saveNative]: the bytes written to the file. [opened] says whether
    the output stream is good after [open]. A row that is not inside the
    buffer, or a negative [view_width] as the count of a write, is reported
    as [Undefined]. *)
Definition saveNative a (opened : bool) : outcome (list byte) :=
  if negb opened then Aborts
  else
    let fout :=
      int_to_bytes (total_height a) ++ int_to_bytes (total_width a)
      ++ int_to_bytes (view_height a) ++ int_to_bytes (view_width a)
      ++ int_to_bytes (view_xoff a) ++ int_to_bytes (view_yoff a)
      ++ int_to_bytes (num_data_cells a) ++ to_bytes (no_data a) in
    for_each (seqZ 0 (view_height a))
      (fun y fout =>
         row ← vec_block (data a) (int_mul y (view_width a))
                 (view_width a);
         Returns (fout ++ encode_block row))
      fout.

(** [loadNative]. [file] is the content of the file, [None] when the
    stream is not good after opening it. *)
Definition loadNative a (file : option (list byte)) : outcome (Array2D T) :=
  match file with
  | None => Aborts
  | Some bytes =>
      let fin := mkIstream true bytes in
      let '(v, fin) := read_int (total_height a) fin in
      let a := set_total_height a v in
      let '(v, fin) := read_int (total_width a) fin in
      let a := set_total_width a v in
      let '(v, fin) := read_int (view_height a) fin in
      let a := set_view_height a v in
      let '(v, fin) := read_int (view_width a) fin in
      let a := set_view_width a v in
      let '(v, fin) := read_int (view_xoff a) fin in
      let a := set_view_xoff a v in
      let '(v, fin) := read_int (view_yoff a) fin in
      let a := set_view_yoff a v in
      let '(v, fin) := read_int (num_data_cells a) fin in
      let a := set_num_data_cells a v in
      let '(v, fin) := read_T (no_data a) fin in
      let a := set_no_data a v in
      a ← resize a (view_width a) (view_height a) elem_default;
      '(d, _) ← for_each (seqZ 0 (view_height a))
                  (fun y '(d, fin) =>
                     old ← vec_block d (int_mul y (view_width a))
                             (view_width a);
                     let '(bs, fin) :=
                       stream_read (Z.to_nat (view_width a) * sizeof_T)
                         (encode_block old) fin in
                     d ← vec_store_block d (int_mul y (view_width a))
                           (decode_block (length old) bs);
                     Returns (d, fin))
                  (data a, fin);
      Returns (set_data a d)
  end.

(** [Array2D(filename, native, xOffset, yOffset, part_width,
    part_height)]. *)
Definition Array2D_from_file (nd0 : T) (dt0 : GDALDataType) (native : bool)
    (file : option (list byte)) (fin : option (GDALDataset T))
    (xOffset yOffset part_width part_height : Z) : outcome (Array2D T) :=
  if native then loadNative (Array2D_new nd0 dt0) file
  else loadGDAL (Array2D_new nd0 dt0) fin xOffset yOffset part_width
         part_height.
End Native.

(** [HEADER_SIZE = 7*sizeof(int) + sizeof(T)]. *)
Definition HEADER_SIZE {T : Type} `{NativeRepr T} : Z :=
  7 * 4 + Z.of_nat sizeof_T.

(** ** Two element types *)

(** [uint8_t]. *)
Definition uint8_t : Type := byte.

#[global] Instance uint8_elem : Elem uint8_t :=
  {| elem_eqb := Byte.eqb; elem_default := x00; elem_ctype := c_uint8_t |}.

#[global] Instance uint8_repr : NativeRepr uint8_t :=
  {| sizeof_T := 1%nat;
     to_bytes := fun b => [b];
     of_bytes := fun bs => match bs with b :: _ => b | [] => x00 end |}.

#[global] Instance uint8_laws : NativeReprLaws uint8_t.
Proof. split; reflexivity. Qed.

(** [int32_t], a [Z] kept in range by the operations that produce it. *)
Definition int32_t : Type := Z.

#[global] Instance int32_elem : Elem int32_t :=
  {| elem_eqb := Z.eqb; elem_default := 0; elem_ctype := c_int32_t |}.

(** ** Predicates of the specification *)

Section SpecSide.
Context {T : Type} `{Elem T}.
Implicit Type a o : Array2D T.

(** The buffer holds [view_width*view_height] elements. *)
Definition buffer_ok a : Prop :=
  Z.of_nat (length (data a)) = viewSize a.

(** The brute-force count of the cells that differ from [no_data]. *)
Definition brute_force_count a : Z :=
  Z.of_nat
    (length (filter (fun v => elem_eqb v (no_data a) = false) (data a))).

(** The view extents are non-negative and their product is an [int]. *)
Definition view_ok a : Prop :=
  0 <= view_width a /\ 0 <= view_height a
  /\ view_width a * view_height a <= INT_MAX.

(** Everything [operator==] compares. *)
Definition same_view a o : Prop :=
  view_width a = view_width o /\ view_height a = view_height o
  /\ elem_eqb (no_data a) (no_data o) = true
  /\ forall (i : nat) (x y : T),
       data a !! i = Some x -> data o !! i = Some y -> elem_eqb x y = true.

(** The header fields are values of type [int]. *)
Definition header_ok a : Prop :=
  in_int (total_height a) /\ in_int (total_width a)
  /\ in_int (view_height a) /\ in_int (view_width a)
  /\ in_int (view_xoff a) /\ in_int (view_yoff a)
  /\ in_int (num_data_cells a).
End SpecSide.

(** ** Concrete arrays and datasets *)

(** A 2x1 window of bytes at offset (3, 4) of a 10x10 dataset. *)
Definition window_2x1 : Array2D uint8_t :=
  mkArray2D "" "" [] "" [x01; x02] GDT_Byte 10 10 1 2 3 4 (-1) x00.

(** The same 2x1 cells as a freestanding array, with another cached
    count. *)
Definition freestanding_2x1 : Array2D uint8_t :=
  mkArray2D "" "" [] "" [x01; x02] GDT_Byte 1 2 1 2 0 0 2 x00.

(** A 3x3 array of zero bytes. *)
Definition grid_3x3 : Array2D uint8_t :=
  mkArray2D "" "" [] "" (replicate 9 x00) GDT_Byte 3 3 3 3 0 0 (-1) x00.

(** A 2x2 array of bytes, every cell 1, the sentinel 0, not yet counted. *)
Definition ones_2x2 : Array2D uint8_t :=
  mkArray2D "" "" [] "" (replicate 4 x01) GDT_Byte 2 2 2 2 0 0 (-1) x00.

(** [ones_2x2] after its cells were counted and then all set to the
    sentinel. *)
Definition stale_2x2 : Array2D uint8_t :=
  setAll (fst (numDataCells ones_2x2)) x00.

(** A georeferenced 2x1 array. *)
Definition georef_2x1 (ox px oy py : double) : Array2D uint8_t :=
  mkArray2D "" "" [ox; px; 0%float; oy; 0%float; py] "" [x01; x02] GDT_Byte
    1 2 1 2 0 0 (-1) x00.

Definition georef_example : Array2D uint8_t :=
  georef_2x1 10%float 2%float 20%float (-3)%float.

(** A 10x10 dataset of bytes whose row reads succeed inside the raster and
    fail outside of it. *)
Definition raster_10x10 : GDALDataset uint8_t :=
  mkGDALDataset
    (Some (mkGeoTransform 0%float 1%float 0%float 0%float 0%float 1%float))
    "" GDT_Byte 10 10 x00
    (fun xoff y width =>
       if (0 <=? xoff) && (0 <=? width) && (xoff + width <=? 10)
          && (0 <=? y) && (y <? 10)
       then Some (replicate (Z.to_nat width) x01) else None).

(** The same dataset with row reads that never fail. *)
Definition lenient_10x10 : GDALDataset uint8_t :=
  mkGDALDataset
    (Some (mkGeoTransform 0%float 1%float 0%float 0%float 0%float 1%float))
    "" GDT_Byte 10 10 x00
    (fun xoff y width => Some (replicate (Z.to_nat width) x01)).

(** The scenario of a 4x3 array of [int32_t] zeros with the sentinel -1
    written to cell (2, 1): the count [numDataCells] answers. *)
Definition scenario_4x3 : outcome Z :=
  a ← Array2D_sized (T := int32_t) 0 GDT_Unknown 4 3 0;
  a ← set_cell_xy (setNoData a (-1)) 2 1 (-1);
  Returns (snd (numDataCells a)).

(** The scenario of [resize(5, 5)] with the fill value 7 on a 3x3 array. *)
Definition scenario_resize : outcome (Array2D uint8_t) :=
  resize grid_3x3 5 5 x07.

(** An [int32_t] array whose cells 256 and 1 were counted against the
    sentinel 0. *)
Definition counted_int32 : Array2D int32_t :=
  mkArray2D "" "" [] "" [256; 1] GDT_Int32 1 2 1 2 0 0 2 0.

(** * Properties *)

(** ** Machine integers *)

Lemma wrap_int_id (z : Z) : in_int z -> wrap_int z = z.
Proof.
  unfold in_int, INT_MIN, INT_MAX, wrap_int. intros Hz.
  rewrite Z.mod_small by lia. lia.
Qed.

Lemma wrap_int_range (z : Z) : in_int (wrap_int z).
Proof.
  unfold in_int, INT_MIN, INT_MAX, wrap_int.
  pose proof (Z.mod_pos_bound (z + 2147483648) 4294967296). lia.
Qed.

Lemma int_mul_id (x y : Z) : in_int (x * y) -> int_mul x y = x * y.
Proof. apply wrap_int_id. Qed.

Lemma int_add_id (x y : Z) : in_int (x + y) -> int_add x y = x + y.
Proof. apply wrap_int_id. Qed.

Lemma int_sub_id (x y : Z) : in_int (x - y) -> int_sub x y = x - y.
Proof. apply wrap_int_id. Qed.

Lemma Z_of_byte_range (b : byte) : 0 <= Z_of_byte b < 256.
Proof.
  unfold Z_of_byte. pose proof (Byte.to_N_bounded b). lia.
Qed.

Lemma Z_of_byte_of_Z (z : Z) : Z_of_byte (byte_of_Z z) = z mod 256.
Proof.
  unfold Z_of_byte, byte_of_Z.
  pose proof (Z.mod_pos_bound z 256 ltac:(lia)) as Hm.
  destruct (Byte.of_N (Z.to_N (z mod 256))) as [b|] eqn:E.
  - apply Byte.to_of_N in E. rewrite E. lia.
  - apply Byte.of_N_None_iff in E. lia.
Qed.

Lemma int_to_bytes_length (z : Z) : length (int_to_bytes z) = 4%nat.
Proof. reflexivity. Qed.

Lemma int_of_to_bytes (z : Z) : in_int z -> int_of_bytes (int_to_bytes z) = z.
Proof.
  intros Hz. unfold int_to_bytes, int_of_bytes.
  rewrite !Z_of_byte_of_Z.
  assert (Hsum : z mod 256 + 256 * (z / 256 mod 256)
                 + 65536 * (z / 65536 mod 256)
                 + 16777216 * (z / 16777216 mod 256)
                 = z mod 4294967296)
    by (Z.to_euclidean_division_equations; lia).
  rewrite Hsum. unfold wrap_int, in_int, INT_MIN, INT_MAX in *.
  Z.to_euclidean_division_equations; lia.
Qed.

(** ** Coordinate conversions *)

Section Coordinates.
Context {T : Type}.
Implicit Type a : Array2D T.

Lemma xyToI_in_view a (x y : Z) :
  view_width a * view_height a <= INT_MAX ->
  0 <= x < view_width a -> 0 <= y < view_height a ->
  xyToI a x y = y * view_width a + x
  /\ 0 <= y * view_width a + x < view_width a * view_height a.
Proof.
  intros Hsize Hx Hy. unfold xyToI.
  assert (0 <= y * view_width a) by nia.
  assert (y * view_width a + x < view_width a * view_height a) by nia.
  unfold INT_MAX in Hsize.
  rewrite int_mul_id by (unfold in_int, INT_MIN, INT_MAX; lia).
  rewrite int_add_id by (unfold in_int, INT_MIN, INT_MAX; lia).
  lia.
Qed.

Lemma iToxy_defined a (i : Z) :
  view_width a <> 0 -> 0 <= i ->
  iToxy a i = Returns (Z.rem i (view_width a), Z.quot i (view_width a)).
Proof.
  intros Hw Hi. unfold iToxy.
  destruct (view_width a =? 0) eqn:E0; [lia|].
  destruct (i =? INT_MIN) eqn:E1; [unfold INT_MIN in E1; lia|].
  reflexivity.
Qed.

Lemma rem_quot_row_major (w x y : Z) :
  0 <= x < w -> 0 <= y ->
  Z.rem (y * w + x) w = x /\ Z.quot (y * w + x) w = y.
Proof.
  intros Hx Hy.
  assert (0 <= y * w + x) by nia.
  rewrite Z.rem_mod_nonneg, Z.quot_div_nonneg by lia.
  split.
  - rewrite Z.add_comm, Z.mod_add by lia. apply Z.mod_small. lia.
  - rewrite Z.add_comm, Z.div_add by lia.
    rewrite Z.div_small by lia. lia.
Qed.
End Coordinates.

(** C8. With a view size that is an [int], [xyToI] is [y*view_width + x],
    [iToxy] undoes it on every cell of the view, and [xyToI] undoes [iToxy]
    on every linear index of the view. *)
Theorem iToxy_xyToI_inverse {T : Type} (a : Array2D T) :
  view_width a * view_height a <= INT_MAX ->
  (forall x y : Z,
     0 <= x < view_width a -> 0 <= y < view_height a ->
     xyToI a x y = y * view_width a + x
     /\ iToxy a (xyToI a x y) = Returns (x, y))
  /\ (forall i : Z,
        0 <= i < view_width a * view_height a ->
        exists x y : Z, iToxy a i = Returns (x, y) /\ xyToI a x y = i).
Proof.
  intros Hsize. split.
  - intros x y Hx Hy.
    destruct (xyToI_in_view a x y Hsize Hx Hy) as [Hi Hr].
    split; [exact Hi|].
    rewrite Hi, iToxy_defined by lia.
    destruct (rem_quot_row_major (view_width a) x y) as [-> ->]; [lia..|].
    reflexivity.
  - intros i Hi.
    assert (Hw : view_width a <> 0) by nia.
    exists (Z.rem i (view_width a)), (Z.quot i (view_width a)).
    split; [apply iToxy_defined; lia|].
    unfold xyToI.
    pose proof (Z.quot_rem' i (view_width a)) as Hqr.
    pose proof (Z.mul_quot_le i (view_width a) ltac:(lia) Hw) as Hq.
    unfold INT_MAX in Hsize.
    rewrite int_mul_id by (unfold in_int, INT_MIN, INT_MAX; lia).
    rewrite int_add_id by (unfold in_int, INT_MIN, INT_MAX; lia).
    lia.
Qed.

Lemma iToxy_xyToI_inverse_witness :
  (xyToI grid_3x3 2 1 = 1 * 3 + 2
   /\ iToxy grid_3x3 (xyToI grid_3x3 2 1) = Returns (2, 1))
  /\ exists x y : Z, iToxy grid_3x3 7 = Returns (x, y)
                     /\ xyToI grid_3x3 x y = 7.
Proof.
  destruct (iToxy_xyToI_inverse grid_3x3) as [Hxy Hi].
  - vm_compute. discriminate.
  - split.
    + apply (Hxy 2 1); simpl; lia.
    + apply (Hi 7). simpl. lia.
Defined.

(** ** Neighbour indices *)

(** For the offsets of the eight neighbours, [nToI] answers the index of
    the neighbour when it is in the view and -1 when it is not. *)
Lemma nToI_unit_offsets {T : Type} (a : Array2D T) (i dx dy : Z) :
  view_width a * view_height a <= INT_MAX ->
  0 <= i < view_width a * view_height a ->
  0 <= view_width a ->
  -1 <= dx <= 1 -> -1 <= dy <= 1 ->
  nToI a i dx dy =
    Returns (if in_grid a (Z.rem i (view_width a) + dx)
                  (Z.quot i (view_width a) + dy)
             then (Z.quot i (view_width a) + dy) * view_width a
                  + (Z.rem i (view_width a) + dx)
             else -1).
Proof.
  intros Hsize Hi Hw Hdx Hdy.
  assert (Hw0 : 0 < view_width a).
  { destruct (Z.eq_dec (view_width a) 0) as [E|E]; [rewrite E in Hi|]; lia. }
  assert (Hh0 : 0 < view_height a) by nia.
  pose proof (Z.rem_bound_pos i (view_width a) ltac:(lia) Hw0) as Hx.
  pose proof (Z.quot_pos i (view_width a) ltac:(lia) Hw0) as Hy.
  assert (Hy' : Z.quot i (view_width a) < view_height a).
  { apply Z.quot_lt_upper_bound; lia. }
  unfold nToI.
  destruct (view_width a =? 0) eqn:E0; [lia|].
  destruct (i =? INT_MIN) eqn:E1; [unfold INT_MIN in E1; lia|].
  cbn [orb andb].
  assert (Hmax : view_width a <= INT_MAX /\ view_height a <= INT_MAX) by nia.
  unfold INT_MAX in Hsize, Hmax.
  rewrite !int_add_id by (unfold in_int, INT_MIN, INT_MAX; lia).
  unfold in_grid.
  set (x := Z.rem i (view_width a) + dx).
  set (y := Z.quot i (view_width a) + dy).
  destruct (Z.ltb_spec x 0), (Z.ltb_spec y 0), (Z.eqb_spec x (view_width a)),
    (Z.eqb_spec y (view_height a)), (Z.leb_spec 0 x), (Z.leb_spec 0 y),
    (Z.ltb_spec x (view_width a)), (Z.ltb_spec y (view_height a));
    cbn [orb andb]; try reflexivity; try lia.
  f_equal. apply xyToI_in_view; unfold INT_MAX; lia.
Qed.

(** C5. In a 3x3 view, the cell two columns to the right of cell 2 is
    outside the view, and [nToI] answers the index 4 for it, not -1. *)
Theorem nToI_beyond_right_edge :
  in_grid grid_3x3 (Z.rem 2 (view_width grid_3x3) + 2)
    (Z.quot 2 (view_width grid_3x3) + 0) = false
  /\ nToI grid_3x3 2 2 0 = Returns 4.
Proof. split; reflexivity. Qed.

(** ** The no-data sentinel and the cached count *)

Section Counting.
Context {T : Type} `{Elem T}.
Implicit Type a : Array2D T.

Lemma count_loop (nd : T) (l : list T) (n : Z) :
  0 <= n -> n + Z.of_nat (length l) <= INT_MAX ->
  foldl (fun n i => if negb (elem_eqb i nd) then int_add n 1 else n) n l
  = n + Z.of_nat (length (filter (fun v => elem_eqb v nd = false) l)).
Proof.
  revert n. induction l as [|x l IH]; intros n Hn Hle; cbn [foldl].
  - cbn. lia.
  - cbn [length] in Hle. rewrite filter_cons.
    pose proof (length_filter (fun v => elem_eqb v nd = false) l) as Hf.
    destruct (elem_eqb x nd) eqn:E; cbn [negb].
    + rewrite decide_False by congruence. apply IH; lia.
    + rewrite decide_True by reflexivity.
      unfold INT_MAX in Hle.
      rewrite int_add_id by (unfold in_int, INT_MIN, INT_MAX; lia).
      rewrite IH by (unfold INT_MAX; lia). cbn [length]. lia.
Qed.

Lemma countDataCells_brute_force a :
  Z.of_nat (length (data a)) <= INT_MAX ->
  num_data_cells (countDataCells a) = brute_force_count a.
Proof.
  intros Hlen. unfold countDataCells, brute_force_count. cbn.
  rewrite count_loop by lia. lia.
Qed.

Lemma brute_force_count_nonneg a : 0 <= brute_force_count a.
Proof. unfold brute_force_count. lia. Qed.
End Counting.

(** C4, as the code has it. [countDataCells] stores the brute-force count;
    [numDataCells] counts when the cache holds -1 and otherwise answers the
    cache as it is, leaving the array unchanged. *)
Theorem numDataCells_cached {T : Type} `{Elem T} (a : Array2D T) :
  Z.of_nat (length (data a)) <= INT_MAX ->
  num_data_cells (countDataCells a) = brute_force_count a
  /\ (num_data_cells a = -1 ->
      numDataCells a = (countDataCells a, brute_force_count a))
  /\ (num_data_cells a <> -1 -> numDataCells a = (a, num_data_cells a)).
Proof.
  intros Hlen. split; [|split].
  - apply countDataCells_brute_force, Hlen.
  - intros Hc. unfold numDataCells. rewrite Hc. cbn [Z.eqb Pos.eqb].
    rewrite countDataCells_brute_force by exact Hlen. reflexivity.
  - intros Hc. unfold numDataCells.
    destruct (Z.eqb_spec (num_data_cells a) (-1)); [contradiction|].
    reflexivity.
Qed.

Lemma numDataCells_cached_witness :
  num_data_cells (countDataCells ones_2x2) = brute_force_count ones_2x2
  /\ (num_data_cells ones_2x2 = -1 ->
      numDataCells ones_2x2
      = (countDataCells ones_2x2, brute_force_count ones_2x2))
  /\ (num_data_cells ones_2x2 <> -1 ->
      numDataCells ones_2x2 = (ones_2x2, num_data_cells ones_2x2)).
Proof.
  apply (numDataCells_cached ones_2x2). vm_compute. discriminate.
Defined.

(** C4, as stated, fails: once the four cells of [ones_2x2] are counted and
    then all set to the sentinel, [numDataCells] still answers 4 while no
    cell differs from the sentinel. *)
Lemma numDataCells_stale :
  snd (numDataCells stale_2x2) = 4
  /\ brute_force_count stale_2x2 = 0
  /\ snd (numDataCells stale_2x2) <> brute_force_count stale_2x2.
Proof. repeat split. vm_compute. discriminate. Qed.

Example scenario_4x3_count : scenario_4x3 = Returns 11.
Proof. reflexivity. Qed.

(** C9. [setNoData] assigns [no_data] and nothing else; the cached count
    is the one held before the call. *)
Theorem setNoData_frame {T : Type} `{Elem T} (a : Array2D T) (v : T) :
  no_data (setNoData a v) = v
  /\ data (setNoData a v) = data a
  /\ total_width (setNoData a v) = total_width a
  /\ total_height (setNoData a v) = total_height a
  /\ view_width (setNoData a v) = view_width a
  /\ view_height (setNoData a v) = view_height a
  /\ view_xoff (setNoData a v) = view_xoff a
  /\ view_yoff (setNoData a v) = view_yoff a
  /\ geotransform (setNoData a v) = geotransform a
  /\ projection (setNoData a v) = projection a
  /\ num_data_cells (setNoData a v) = num_data_cells a
  /\ numDataCells_const (setNoData a v) = numDataCells_const a
  /\ snd (numDataCells (setNoData a v))
     = (if num_data_cells a =? -1
        then num_data_cells (countDataCells (setNoData a v))
        else num_data_cells a).
Proof.
  repeat split. unfold numDataCells. cbn.
  destruct (num_data_cells a =? -1); reflexivity.
Qed.

(** ** Loops and vectors *)

Lemma for_each_inv {S : Type} (P : S -> Prop) (idx : list Z)
    (body : Z -> S -> outcome S) (s s' : S) :
  P s ->
  (forall i t t', i ∈ idx -> P t -> body i t = Returns t' -> P t') ->
  for_each idx body s = Returns s' -> P s'.
Proof.
  revert s. induction idx as [|i idx IH]; intros s Hs Hbody; cbn.
  - intros [= <-]. exact Hs.
  - destruct (body i s) as [t| | |] eqn:E; cbn; try discriminate.
    apply IH.
    + apply (Hbody i s t); [left|exact Hs|exact E].
    + intros j u u' Hj. apply Hbody. right. exact Hj.
Qed.

Lemma for_each_returns {S : Type} (P : S -> Prop) (idx : list Z)
    (body : Z -> S -> outcome S) (s : S) :
  P s ->
  (forall i t, i ∈ idx -> P t -> exists t', body i t = Returns t' /\ P t') ->
  exists s', for_each idx body s = Returns s' /\ P s'.
Proof.
  revert s. induction idx as [|i idx IH]; intros s Hs Hbody; cbn.
  - exists s. split; [reflexivity|exact Hs].
  - destruct (Hbody i s) as (t & Ht & HPt); [left|exact Hs|].
    rewrite Ht. cbn. apply IH; [exact HPt|].
    intros j u Hj. apply Hbody. right. exact Hj.
Qed.

Lemma vec_load_in_range {A : Type} (v : list A) (i : Z) :
  0 <= i < Z.of_nat (length v) ->
  exists x, v !! Z.to_nat i = Some x /\ vec_load v i = Returns x.
Proof.
  intros Hi. unfold vec_load, vec_index.
  destruct (Z.leb_spec 0 i); [|lia].
  destruct (Z.ltb_spec i (Z.of_nat (length v))); [|lia]. cbn.
  destruct (lookup_lt_is_Some_2 v (Z.to_nat i)) as [x Hx]; [lia|].
  exists x. rewrite Hx. split; reflexivity.
Qed.

Lemma vec_store_length {A : Type} (v v' : list A) (i : Z) (x : A) :
  vec_store v i x = Returns v' -> length v' = length v.
Proof.
  unfold vec_store. destruct (vec_index v i); [|discriminate].
  intros [= <-]. apply length_insert.
Qed.

Lemma vec_store_in_range {A : Type} (v : list A) (i : Z) (x : A) :
  0 <= i < Z.of_nat (length v) ->
  vec_store v i x = Returns (<[Z.to_nat i := x]> v).
Proof.
  intros Hi. unfold vec_store, vec_index.
  destruct (Z.leb_spec 0 i); [|lia].
  destruct (Z.ltb_spec i (Z.of_nat (length v))); [|lia]. reflexivity.
Qed.

Lemma vec_store_block_length {A : Type} (v v' : list A) (off : Z)
    (blk : list A) :
  vec_store_block v off blk = Returns v' -> length v' = length v.
Proof.
  unfold vec_store_block.
  destruct (Z.leb_spec 0 off); [|discriminate].
  destruct (Z.leb_spec (off + Z.of_nat (length blk)) (Z.of_nat (length v)));
    [|discriminate].
  cbn. intros [= <-].
  rewrite !length_app, length_take, length_drop. lia.
Qed.

Lemma vec_block_in_range {A : Type} (v : list A) (off len : Z) :
  0 <= off -> 0 <= len -> off + len <= Z.of_nat (length v) ->
  vec_block v off len = Returns (take (Z.to_nat len) (drop (Z.to_nat off) v)).
Proof.
  intros Ho Hl Hle. unfold vec_block.
  destruct (Z.leb_spec 0 off); [|lia].
  destruct (Z.leb_spec 0 len); [|lia].
  destruct (Z.leb_spec (off + len) (Z.of_nat (length v))); [|lia].
  reflexivity.
Qed.

(** The offset of row [y] of a consistent buffer. *)
Lemma row_offset {T : Type} (a : Array2D T) (y : Z) :
  view_ok a -> 0 <= y < view_height a ->
  int_mul y (view_width a) = y * view_width a
  /\ 0 <= y * view_width a
  /\ y * view_width a + view_width a <= view_width a * view_height a.
Proof.
  intros (Hw & Hh & Hsize) Hy.
  assert (0 <= y * view_width a) by nia.
  assert (y * view_width a + view_width a <= view_width a * view_height a)
    by nia.
  unfold INT_MAX in Hsize.
  rewrite int_mul_id by (unfold in_int, INT_MIN, INT_MAX; lia). lia.
Qed.

Lemma viewSize_view_ok {T : Type} (a : Array2D T) :
  view_ok a -> viewSize a = view_width a * view_height a.
Proof.
  intros (Hw & Hh & Hsize). unfold viewSize. unfold INT_MAX in Hsize.
  apply int_mul_id. unfold in_int, INT_MIN, INT_MAX. nia.
Qed.

(** ** Equality *)

Section Equality.
Context {T : Type} `{Elem T}.
Implicit Type a o : Array2D T.

Lemma equal_cells_spec (d od : list T) (idx : list Z) :
  length od = length d ->
  (forall i, i ∈ idx -> 0 <= i < Z.of_nat (length d)) ->
  exists b, equal_cells d od idx = Returns b
    /\ (b = true <->
        forall i x y, i ∈ idx -> d !! Z.to_nat i = Some x ->
                      od !! Z.to_nat i = Some y -> elem_eqb x y = true).
Proof.
  intros Hlen. induction idx as [|i idx IH]; intros Hidx; cbn.
  - exists true. split; [reflexivity|]. split; [|reflexivity].
    intros _ i x y Hi. inversion Hi.
  - destruct (vec_load_in_range d i) as (x & Hx & ->); [apply Hidx; left|].
    destruct (vec_load_in_range od i) as (y & Hy & ->);
      [rewrite Hlen; apply Hidx; left|].
    cbn. destruct (elem_eqb x y) eqn:E; cbn.
    + destruct IH as (b & Hb & Hiff).
      { intros j Hj. apply Hidx. right. exact Hj. }
      exists b. split; [exact Hb|]. rewrite Hiff. split.
      * intros Hall j u v Hj Hu Hv.
        apply elem_of_cons in Hj as [->|Hj]; [|eauto].
        congruence.
      * intros Hall j u v Hj. apply Hall. right. exact Hj.
    + exists false. split; [reflexivity|]. split; [discriminate|].
      intros Hall.
      assert (elem_eqb x y = true)
        by (apply (Hall i x y); [left|exact Hx|exact Hy]).
      congruence.
Qed.
End Equality.

(** C6. On two arrays whose buffers have their view sizes, [operator==]
    answers, and it answers [true] exactly when the view widths, the view
    heights, the no-data values and every pair of corresponding cells
    match. The total extents, the offsets and the geotransform play no
    part; differing no-data values make the answer [false]. *)
Theorem equals_spec {T : Type} `{Elem T} (a o : Array2D T) :
  buffer_ok a -> buffer_ok o ->
  (exists b, equals a o = Returns b /\ (b = true <-> same_view a o))
  /\ (forall (tw th xo yo tw' th' xo' yo' : Z) (g g' : list double),
        equals
          (set_geotransform
             (set_view_yoff
                (set_view_xoff
                   (set_total_height (set_total_width a tw) th) xo) yo) g)
          (set_geotransform
             (set_view_yoff
                (set_view_xoff
                   (set_total_height (set_total_width o tw') th') xo') yo')
             g')
        = equals a o)
  /\ (elem_eqb (no_data a) (no_data o) = false -> equals a o = Returns false).
Proof.
  intros Ha Ho. split; [|split].
  - unfold equals, viewWidth, viewHeight, noData, same_view.
    destruct (Z.eqb_spec (view_width a) (view_width o)) as [Ew|Ew]; cbn;
      [|exists false; split; [reflexivity|]; split; [discriminate|tauto]].
    destruct (Z.eqb_spec (view_height a) (view_height o)) as [Eh|Eh]; cbn;
      [|exists false; split; [reflexivity|]; split; [discriminate|tauto]].
    destruct (elem_eqb (no_data a) (no_data o)) eqn:End; cbn;
      [|exists false; split; [reflexivity|]; split; [discriminate|];
        intros (_ & _ & ? & _); discriminate].
    assert (Hlen : length (data o) = length (data a)).
    { unfold buffer_ok, viewSize in Ha, Ho. rewrite <- Ew, <- Eh in Ho. lia. }
    destruct (equal_cells_spec (data a) (data o)
                (seqZ 0 (int_mul (view_width a) (view_height a))) Hlen)
      as (b & Hb & Hiff).
    { intros i Hi. apply elem_of_seqZ in Hi.
      unfold buffer_ok, viewSize in Ha. lia. }
    exists b. split; [exact Hb|]. rewrite Hiff. split.
    + intros Hall. repeat split; try assumption.
      intros i x y Hx Hy.
      apply (Hall (Z.of_nat i) x y); rewrite ?Nat2Z.id; try assumption.
      apply elem_of_seqZ. apply lookup_lt_Some in Hx.
      unfold buffer_ok, viewSize in Ha. lia.
    + intros (_ & _ & _ & Hall) i x y _. apply Hall.
  - intros. reflexivity.
  - intros End. unfold equals, noData. rewrite End.
    destruct (negb (viewWidth a =? viewWidth o)
              || negb (viewHeight a =? viewHeight o)); reflexivity.
Qed.

Lemma equals_spec_witness :
  exists b, equals window_2x1 freestanding_2x1 = Returns b
            /\ (b = true <-> same_view window_2x1 freestanding_2x1).
Proof.
  apply (equals_spec window_2x1 freestanding_2x1); vm_compute; reflexivity.
Defined.

(** Views cut from datasets of different extents compare equal; a different
    sentinel makes them unequal. *)
Example equals_ignores_total_extent :
  total_width window_2x1 <> total_width freestanding_2x1
  /\ equals window_2x1 freestanding_2x1 = Returns true
  /\ equals window_2x1 (setNoData freestanding_2x1 x09) = Returns false.
Proof. repeat split. vm_compute. discriminate. Qed.

(** ** Saving through the raster library *)

Section SaveGDAL.
Context {T : Type} `{Elem T}.
Implicit Type a : Array2D T.

Lemma saveGDAL_rows_return a (row_ok : Z -> bool) :
  elem_ctype <> c_other -> buffer_ok a -> view_ok a ->
  (forall y, 0 <= y < view_height a -> row_ok y = true) ->
  exists rows,
    for_each (seqZ 0 (view_height a))
      (fun y rows =>
         row ← vec_block (data a) (int_mul y (view_width a))
                 (view_width a);
         _ ← myGDALType;
         if row_ok y then Returns (rows ++ [row])
         else Throws "Error saving file with GDAL!")
      [] = Returns rows.
Proof.
  intros Hty Hbuf Hview Hrows.
  destruct (for_each_returns (fun _ : list (list T) => True)
              (seqZ 0 (view_height a))
              (fun y rows =>
                 row ← vec_block (data a) (int_mul y (view_width a))
                         (view_width a);
                 _ ← myGDALType;
                 if row_ok y then Returns (rows ++ [row])
                 else Throws "Error saving file with GDAL!") [])
    as (rows & Hr & _); [exact I| |exists rows; exact Hr].
  intros y rows Hy _. apply elem_of_seqZ in Hy.
  destruct (row_offset a y Hview) as (-> & Hlo & Hhi); [lia|].
  rewrite vec_block_in_range.
  - cbn. unfold myGDALType.
    destruct elem_ctype; try contradiction; cbn;
      rewrite Hrows by lia; eauto.
  - exact Hlo.
  - apply Hview.
  - unfold buffer_ok in Hbuf. rewrite Hbuf, viewSize_view_ok by exact Hview.
    exact Hhi.
Qed.
End SaveGDAL.

(** The geotransform of every dataset [saveGDAL] writes. *)
Lemma saveGDAL_shift {T : Type} `{Elem T} (a : Array2D T)
    (row_ok : Z -> bool) (xoffset yoffset : Z) (g0 g1 g2 g3 g4 g5 : double)
    (driver created : bool) (out : GDALOutput T) :
  geotransform a = [g0; g1; g2; g3; g4; g5] ->
  saveGDAL a driver created row_ok xoffset yoffset = Returns out ->
  out_geotransform out
  = [PrimFloat.add g0 (PrimFloat.mul (double_of_int xoffset) g1); g1; g2;
     PrimFloat.add g3 (PrimFloat.mul (double_of_int yoffset) g5); g4; g5].
Proof.
  intros Hgt. unfold saveGDAL. rewrite Hgt.
  destruct driver; cbn; [|discriminate].
  destruct myGDALType as [ty| | |]; cbn; try discriminate.
  destruct created; cbn; [|discriminate].
  match goal with
  | |- context [for_each ?idx ?body ?s] =>
      destruct (for_each idx body s) as [rows| | |]
  end; cbn; try discriminate.
  intros [= <-]. reflexivity.
Qed.

(** C7. With a six-element geotransform, the dataset [saveGDAL] writes has
    element 0 shifted by [xoffset] times element 1, element 3 shifted by
    [yoffset] times element 5, and the other four elements as they were;
    and [saveGDAL] does write the dataset when the driver, the creation and
    the row writes succeed on a consistent array of a supported type. *)
Theorem saveGDAL_geotransform {T : Type} `{Elem T} (a : Array2D T)
    (row_ok : Z -> bool) (xoffset yoffset : Z) (g0 g1 g2 g3 g4 g5 : double) :
  geotransform a = [g0; g1; g2; g3; g4; g5] ->
  (forall (driver created : bool) (out : GDALOutput T),
     saveGDAL a driver created row_ok xoffset yoffset = Returns out ->
     out_geotransform out
     = [PrimFloat.add g0 (PrimFloat.mul (double_of_int xoffset) g1); g1; g2;
        PrimFloat.add g3 (PrimFloat.mul (double_of_int yoffset) g5); g4; g5])
  /\ (elem_ctype <> c_other -> buffer_ok a -> view_ok a ->
      (forall y, 0 <= y < view_height a -> row_ok y = true) ->
      exists out,
        saveGDAL a true true row_ok xoffset yoffset = Returns out).
Proof.
  intros Hgt. split.
  - intros driver created out. apply saveGDAL_shift. exact Hgt.
  - intros Hty Hbuf Hview Hrows. unfold saveGDAL. rewrite Hgt.
    destruct (saveGDAL_rows_return a row_ok Hty Hbuf Hview Hrows)
      as (rows & Hr).
    rewrite Hr. unfold myGDALType.
    destruct elem_ctype; try contradiction; cbn; eauto.
Qed.

Lemma saveGDAL_geotransform_witness :
  exists out,
    saveGDAL georef_example true true (fun _ => true) 3 4 = Returns out
    /\ out_geotransform out
       = [16%float; 2%float; 0%float; 8%float; 0%float; (-3)%float].
Proof.
  destruct (saveGDAL_geotransform georef_example (fun _ => true) 3 4
              10%float 2%float 0%float 20%float 0%float (-3)%float eq_refl)
    as [Hgt Hout].
  destruct Hout as [out Hout].
  - discriminate.
  - reflexivity.
  - vm_compute. repeat split; discriminate.
  - reflexivity.
  - exists out. split; [exact Hout|].
    rewrite (Hgt true true out Hout). reflexivity.
Defined.

(** The example of the specification: offsets (3, 4) on
    [[ox; px; 0; oy; 0; py]]. *)
Lemma saveGDAL_geotransform_3_4 (ox px oy py : double)
    (row_ok : Z -> bool) (driver created : bool) (out : GDALOutput uint8_t) :
  saveGDAL (georef_2x1 ox px oy py) driver created row_ok 3 4 = Returns out ->
  out_geotransform out
  = [(ox + 3 * px)%float; px; 0%float; (oy + 4 * py)%float; 0%float; py].
Proof.
  apply (saveGDAL_shift (georef_2x1 ox px oy py) row_ok 3 4
           ox px 0%float oy 0%float py driver created out eq_refl).
Qed.

(** ** The length of the buffer *)

Section BufferLength.
Context {T : Type} `{Elem T}.
Implicit Type a : Array2D T.

Lemma resize_inv a (w h : Z) (v : T) (a' : Array2D T) :
  resize a w h v = Returns a' ->
  0 <= int_mul w h
  /\ a' = set_total_width
            (set_view_width
               (set_total_height
                  (set_view_height
                     (set_data a (replicate (Z.to_nat (int_mul w h)) v)) h)
                  h) w) w.
Proof.
  unfold resize. destruct (Z.ltb_spec (int_mul w h) 0); [discriminate|].
  intros [= <-]. split; [assumption|reflexivity].
Qed.

Lemma resize_buffer_ok a (w h : Z) (v : T) (a' : Array2D T) :
  resize a w h v = Returns a' -> buffer_ok a'.
Proof.
  intros Hr. apply resize_inv in Hr as [Hn ->].
  unfold buffer_ok, viewSize. cbn. rewrite length_replicate. lia.
Qed.

Lemma resize_returns a (w h : Z) (v : T) :
  0 <= int_mul w h -> exists a', resize a w h v = Returns a'.
Proof.
  intros Hn. unfold resize.
  destruct (Z.ltb_spec (int_mul w h) 0); [lia|]. eauto.
Qed.

Lemma set_data_buffer_ok a (d : list T) :
  length d = length (data a) -> buffer_ok a -> buffer_ok (set_data a d).
Proof. unfold buffer_ok, viewSize. cbn. intros ->. trivial. Qed.

Lemma store_loop_length (idx : list Z) (f : Z -> Z) (val : T)
    (d0 d : list T) :
  for_each idx (fun x d => vec_store d (f x) val) d0 = Returns d ->
  length d = length d0.
Proof.
  apply (for_each_inv (fun d => length d = length d0)); [reflexivity|].
  intros i t t' _ Ht Hs. apply vec_store_length in Hs. congruence.
Qed.

Lemma setRow_buffer_ok a (y : Z) (v : T) (a' : Array2D T) :
  buffer_ok a -> setRow a y v = Returns a' -> buffer_ok a'.
Proof.
  intros Ha. unfold setRow.
  destruct (for_each _ _ _) as [d| | |] eqn:E; cbn; try discriminate.
  intros [= <-]. apply set_data_buffer_ok; [|exact Ha].
  apply (store_loop_length _ (fun x => int_add (int_mul y (view_width a)) x)
           v _ _ E).
Qed.

Lemma setCol_buffer_ok a (x : Z) (v : T) (a' : Array2D T) :
  buffer_ok a -> setCol a x v = Returns a' -> buffer_ok a'.
Proof.
  intros Ha. unfold setCol.
  destruct (for_each _ _ _) as [d| | |] eqn:E; cbn; try discriminate.
  intros [= <-]. apply set_data_buffer_ok; [|exact Ha].
  apply (store_loop_length _ (fun y => int_add (int_mul y (view_width a)) x)
           v _ _ E).
Qed.

(** On a consistent array, [setRow] completes for every row of the
    view. *)
Lemma setRow_returns a (y : Z) (v : T) :
  buffer_ok a -> view_ok a -> 0 <= y < view_height a ->
  exists a', setRow a y v = Returns a'.
Proof.
  intros Ha Hview Hy. unfold setRow.
  destruct (for_each_returns (fun d => length d = length (data a))
              (seqZ 0 (view_width a))
              (fun x d =>
                 vec_store d (int_add (int_mul y (view_width a)) x) v)
              (data a)) as (d & -> & _); [reflexivity| |cbn; eauto].
  intros x t Hx Ht. apply elem_of_seqZ in Hx.
  destruct (row_offset a y Hview Hy) as (-> & Hlo & Hhi).
  unfold buffer_ok in Ha. rewrite viewSize_view_ok in Ha by exact Hview.
  destruct Hview as (_ & _ & Hsize). unfold INT_MAX in Hsize.
  rewrite int_add_id by (unfold in_int, INT_MIN, INT_MAX; lia).
  rewrite vec_store_in_range by lia.
  eexists. split; [reflexivity|]. rewrite length_insert. exact Ht.
Qed.

Lemma loadGDAL_buffer_ok a (fin : option (GDALDataset T))
    (xOffset yOffset part_width part_height : Z) (a' : Array2D T) :
  loadGDAL a fin xOffset yOffset part_width part_height = Returns a' ->
  buffer_ok a'.
Proof.
  unfold loadGDAL.
  destruct (negb (empty a)); [discriminate|].
  destruct (negb (xOffset >=? 0)); [discriminate|].
  destruct (negb (yOffset >=? 0)); [discriminate|].
  destruct fin as [fin|]; [|discriminate].
  destruct (gd_geotransform fin) as [gt|]; [|discriminate].
  cbv zeta.
  destruct (resize _ _ _ _) as [a1| | |] eqn:Er; cbn; try discriminate.
  destruct (for_each _ _ _) as [d| | |] eqn:El; cbn; try discriminate.
  intros [= <-]. apply set_data_buffer_ok.
  - revert El.
    apply (for_each_inv (fun d => length d = length (data a1)));
      [reflexivity|].
    intros y t t' _ Ht.
    destruct (gd_read_row fin xOffset y (view_width a1)); [|discriminate].
    intros Hs. apply vec_store_block_length in Hs. congruence.
  - apply resize_buffer_ok in Er. exact Er.
Qed.
End BufferLength.

Section NativeLength.
Context {T : Type} `{Elem T} `{NativeRepr T}.
Implicit Type a : Array2D T.

Lemma loadNative_buffer_ok a (file : option (list byte))
    (a' : Array2D T) :
  loadNative a file = Returns a' -> buffer_ok a'.
Proof.
  unfold loadNative. destruct file as [bytes|]; [|discriminate].
  repeat (cbv beta iota zeta;
          match goal with
          | |- context [read_int ?x ?s] =>
              destruct (read_int x s) as [? ?]
          | |- context [read_T ?x ?s] => destruct (read_T x s) as [? ?]
          end).
  cbv beta iota zeta.
  destruct (resize _ _ _ _) as [a1| | |] eqn:Er; cbn; try discriminate.
  destruct (for_each _ _ _) as [[d fin]| | |] eqn:El; cbn;
    try discriminate.
  intros [= <-]. apply set_data_buffer_ok.
  - revert El.
    apply (for_each_inv
             (fun s : list T * istream =>
                length (fst s) = length (data a1))); [reflexivity|].
    intros y [d1 s1] [d2 s2] _ Hd1. cbn [fst] in *.
    destruct (vec_block d1 _ _) as [old| | |]; cbn; try discriminate.
    destruct (stream_read _ _ _) as [bs s3].
    destruct (vec_store_block d1 _ _) as [d3| | |] eqn:Es; cbn;
      try discriminate.
    intros [= <- <-]. apply vec_store_block_length in Es. congruence.
  - apply resize_buffer_ok in Er. exact Er.
Qed.
End NativeLength.

(** C3, as the code has it. Construction, [resize], [setAll], [setRow],
    [setCol], [setNoData], assignment from a consistent array and both
    loads leave a buffer of [view_width*view_height] elements whenever they
    complete; [clear] empties the buffer and keeps the view extents. *)
Theorem buffer_length_preserved {T : Type} `{Elem T} `{NativeRepr T}
    (a : Array2D T) :
  buffer_ok a ->
  (forall (nd : T) dt, buffer_ok (Array2D_new nd dt))
  /\ (forall (nd : T) dt w h v a',
        Array2D_sized nd dt w h v = Returns a' -> buffer_ok a')
  /\ (forall w h v a', resize a w h v = Returns a' -> buffer_ok a')
  /\ (forall v, buffer_ok (setAll a v))
  /\ (forall y v a', setRow a y v = Returns a' -> buffer_ok a')
  /\ (forall x v a', setCol a x v = Returns a' -> buffer_ok a')
  /\ (forall v, buffer_ok (setNoData a v))
  /\ (forall b : Array2D T, buffer_ok (copy_assign b a))
  /\ (forall (b : Array2D T) file a',
        loadNative b file = Returns a' -> buffer_ok a')
  /\ (forall (b : Array2D T) fin xOffset yOffset part_width part_height a',
        loadGDAL b fin xOffset yOffset part_width part_height = Returns a' ->
        buffer_ok a')
  /\ (data (clear a) = []
      /\ view_width (clear a) = view_width a
      /\ view_height (clear a) = view_height a
      /\ (buffer_ok (clear a) <-> viewSize a = 0)).
Proof.
  intros Ha. repeat apply conj.
  - intros nd dt. reflexivity.
  - intros nd dt w h v a'. apply resize_buffer_ok.
  - intros w h v a'. apply resize_buffer_ok.
  - intros v. apply set_data_buffer_ok; [apply length_replicate|exact Ha].
  - intros y v a'. apply setRow_buffer_ok, Ha.
  - intros x v a'. apply setCol_buffer_ok, Ha.
  - intros v. exact Ha.
  - intros b. exact Ha.
  - intros b file a'. apply loadNative_buffer_ok.
  - intros b fin xo yo pw ph a'. apply loadGDAL_buffer_ok.
  - reflexivity.
  - reflexivity.
  - reflexivity.
  - unfold buffer_ok, viewSize. cbn. lia.
  - unfold buffer_ok, viewSize. cbn. lia.
Qed.

Example scenario_resize_fills :
  exists a', scenario_resize = Returns a'
    /\ data a' = replicate 25 x07
    /\ total_width a' = 5 /\ total_height a' = 5
    /\ view_width a' = 5 /\ view_height a' = 5.
Proof. eexists. repeat split. Qed.

Lemma buffer_length_preserved_witness :
  buffer_ok (setAll ones_2x2 x07)
  /\ forall a', setRow ones_2x2 1 x07 = Returns a' -> buffer_ok a'.
Proof.
  destruct (buffer_length_preserved ones_2x2)
    as (_ & _ & _ & Hall & Hrow & _).
  - reflexivity.
  - split; [apply Hall|apply Hrow].
Defined.

(** C3, as stated, fails: [clear] on a consistent 2x2 array leaves an empty
    buffer beside view extents 2 and 2. *)
Lemma clear_breaks_buffer_length :
  buffer_ok ones_2x2
  /\ length (data (clear ones_2x2)) = 0%nat
  /\ viewSize (clear ones_2x2) = 4
  /\ ~ buffer_ok (clear ones_2x2).
Proof. repeat split. vm_compute. discriminate. Qed.

(** ** The window of a raster load *)

Section Window.
Context {T : Type} `{Elem T}.
Implicit Type a : Array2D T.

(** The extent [loadGDAL] gives the view along one axis. *)
Lemma loadGDAL_view_extent a (fin : GDALDataset T)
    (xOffset yOffset part_width part_height : Z) (a' : Array2D T) :
  loadGDAL a (Some fin) xOffset yOffset part_width part_height
  = Returns a' ->
  view_width a'
  = (if (if int_add xOffset part_width >=? gd_xsize fin
         then int_sub (gd_xsize fin) xOffset else part_width) =? 0
     then gd_xsize fin
     else if int_add xOffset part_width >=? gd_xsize fin
          then int_sub (gd_xsize fin) xOffset else part_width)
  /\ view_height a'
     = (if (if int_add yOffset part_height >=? gd_ysize fin
            then int_sub (gd_ysize fin) yOffset else part_height) =? 0
        then gd_ysize fin
        else if int_add yOffset part_height >=? gd_ysize fin
             then int_sub (gd_ysize fin) yOffset else part_height)
  /\ view_xoff a' = xOffset /\ view_yoff a' = yOffset
  /\ total_width a' = view_width a' /\ total_height a' = view_height a'.
Proof.
  unfold loadGDAL.
  destruct (negb (empty a)); [discriminate|].
  destruct (negb (xOffset >=? 0)); [discriminate|].
  destruct (negb (yOffset >=? 0)); [discriminate|].
  destruct (gd_geotransform fin) as [gt|]; [|discriminate].
  cbv zeta.
  destruct (resize _ _ _ _) as [a1| | |] eqn:Er; cbn; try discriminate.
  destruct (for_each _ _ _) as [d| | |] eqn:El; cbn; try discriminate.
  intros [= <-]. apply resize_inv in Er as [_ ->]. cbn.
  repeat split; reflexivity.
Qed.

(** A request that runs past the dataset is cut at its edge, when the
    offset lies inside the dataset. *)
Lemma loadGDAL_clamps a (fin : GDALDataset T)
    (xOffset yOffset part_width part_height : Z) (a' : Array2D T) :
  loadGDAL a (Some fin) xOffset yOffset part_width part_height
  = Returns a' ->
  in_int (xOffset + part_width) -> in_int (gd_xsize fin - xOffset) ->
  gd_xsize fin < xOffset + part_width -> xOffset < gd_xsize fin ->
  view_width a' = gd_xsize fin - xOffset.
Proof.
  intros Hload Hsum Hdiff Hover Hin.
  apply loadGDAL_view_extent in Hload as (-> & _).
  rewrite int_add_id, int_sub_id by assumption.
  destruct (Z.geb_spec (xOffset + part_width) (gd_xsize fin)); [|lia].
  destruct (Z.eqb_spec (gd_xsize fin - xOffset) 0); [lia|reflexivity].
Qed.

(** A requested width of 0 at an offset inside the dataset gives the
    width of the whole dataset. *)
Lemma loadGDAL_width_request_zero a (fin : GDALDataset T)
    (xOffset yOffset part_height : Z) (a' : Array2D T) :
  loadGDAL a (Some fin) xOffset yOffset 0 part_height = Returns a' ->
  in_int xOffset -> xOffset < gd_xsize fin ->
  view_width a' = gd_xsize fin.
Proof.
  intros Hload Hx Hin.
  apply loadGDAL_view_extent in Hload as (-> & _).
  rewrite int_add_id by (rewrite Z.add_0_r; assumption).
  rewrite Z.add_0_r.
  destruct (Z.geb_spec xOffset (gd_xsize fin)); [lia|]. reflexivity.
Qed.
End Window.

(** C2. On a 10x10 dataset, the request (xOffset=5, width=20) is cut to the
    view width 5. The request (xOffset=5, width=0) is given the view width
    10, not the remaining 5: with row reads that never fail the load
    completes with a 10-wide view, and with row reads that fail outside the
    raster the load throws. *)
Theorem loadGDAL_zero_width_ignores_offset :
  (exists a',
     loadGDAL (Array2D_new x00 GDT_Unknown) (Some raster_10x10) 5 0 20 0
     = Returns a' /\ view_width a' = 5)
  /\ (exists a',
        loadGDAL (Array2D_new x00 GDT_Unknown) (Some lenient_10x10) 5 0 0 0
        = Returns a' /\ view_width a' = 10)
  /\ loadGDAL (Array2D_new x00 GDT_Unknown) (Some raster_10x10) 5 0 0 0
     = Throws "Error reading file with GDAL!".
Proof.
  split; [|split].
  - eexists. split; [vm_compute; reflexivity|reflexivity].
  - eexists. split; [vm_compute; reflexivity|reflexivity].
  - vm_compute. reflexivity.
Qed.

(** ** The native round trip *)

(** A file whose header stores the total extents 10 and 10 beside a 2x1
    view (the file [saveNative] writes for [window_2x1]) loads with its
    view extents, offsets, count, sentinel and cells, and with the total
    extents 2 and 1: [loadNative] ends in [resize]. *)
Example native_file_total_extent :
  exists (bytes : list byte) (a' : Array2D uint8_t),
    saveNative window_2x1 true = Returns bytes
    /\ loadNative (Array2D_new x07 GDT_Unknown) (Some bytes) = Returns a'
    /\ view_width a' = view_width window_2x1
    /\ view_height a' = view_height window_2x1
    /\ view_xoff a' = view_xoff window_2x1
    /\ view_yoff a' = view_yoff window_2x1
    /\ num_data_cells a' = num_data_cells window_2x1
    /\ no_data a' = no_data window_2x1
    /\ data a' = data window_2x1
    /\ total_width window_2x1 = 10 /\ total_width a' = 2
    /\ total_height window_2x1 = 10 /\ total_height a' = 1.
Proof.
  eexists. eexists.
  split; [vm_compute; reflexivity|].
  split; [vm_compute; reflexivity|].
  repeat split.
Qed.

Section NativeRoundTrip.
Context {T : Type} `{Elem T} `{NativeRepr T} `{!NativeReprLaws T}.
Implicit Type a b : Array2D T.

Lemma encode_block_app (l k : list T) :
  encode_block (l ++ k) = encode_block l ++ encode_block k.
Proof. unfold encode_block. rewrite map_app, concat_app. reflexivity. Qed.

Lemma encode_block_length (l : list T) :
  length (encode_block l) = (length l * sizeof_T)%nat.
Proof.
  unfold encode_block. induction l as [|x l IH]; cbn; [reflexivity|].
  rewrite length_app, to_bytes_length, IH. reflexivity.
Qed.

Lemma decode_encode_block (l : list T) (rest : list byte) :
  decode_block (length l) (encode_block l ++ rest) = l.
Proof.
  unfold encode_block. induction l as [|x l IH]; cbn; [reflexivity|].
  rewrite <- app_assoc.
  rewrite take_app_length' by (symmetry; apply to_bytes_length).
  rewrite drop_app_length' by (symmetry; apply to_bytes_length).
  rewrite of_to_bytes, IH. reflexivity.
Qed.

Lemma stream_read_exact (n : nat) (old bs rest : list byte) :
  length bs = n -> length old = n ->
  stream_read n old (mkIstream true (bs ++ rest)) = (bs, mkIstream true rest).
Proof.
  intros Hb Ho. unfold stream_read. cbn [is_good is_rest]. cbv zeta.
  rewrite take_app_length' by congruence.
  rewrite drop_app_length' by congruence.
  rewrite drop_ge by lia. rewrite app_nil_r, Hb, Nat.eqb_refl. reflexivity.
Qed.

Lemma read_int_exact (old z : Z) (rest : list byte) :
  in_int z ->
  read_int old (mkIstream true (int_to_bytes z ++ rest))
  = (z, mkIstream true rest).
Proof.
  intros Hz. unfold read_int.
  rewrite stream_read_exact by apply int_to_bytes_length.
  rewrite int_of_to_bytes by exact Hz. reflexivity.
Qed.

Lemma read_T_exact (old v : T) (rest : list byte) :
  read_T old (mkIstream true (to_bytes v ++ rest))
  = (v, mkIstream true rest).
Proof.
  unfold read_T. rewrite stream_read_exact by apply to_bytes_length.
  rewrite of_to_bytes. reflexivity.
Qed.

(** The rows [m], ..., [m+k-1] as [saveNative] appends them. *)
Lemma saveNative_rows a (k m : nat) (fout : list byte) :
  view_ok a -> buffer_ok a ->
  Z.of_nat m + Z.of_nat k <= view_height a ->
  for_each (seqZ (Z.of_nat m) (Z.of_nat k))
    (fun y fout =>
       row ← vec_block (data a) (int_mul y (view_width a)) (view_width a);
       Returns (fout ++ encode_block row))
    fout
  = Returns
      (fout ++ encode_block
                 (take (k * Z.to_nat (view_width a))
                    (drop (m * Z.to_nat (view_width a)) (data a)))).
Proof.
  intros Hview Hbuf. revert m fout.
  induction k as [|k IH]; intros m fout Hm.
  - cbn. rewrite app_nil_r. reflexivity.
  - rewrite seqZ_cons by lia. cbn [for_each].
    destruct (row_offset a (Z.of_nat m) Hview) as (-> & Hlo & Hhi); [lia|].
    unfold buffer_ok in Hbuf. rewrite viewSize_view_ok in Hbuf by exact Hview.
    rewrite vec_block_in_range by (destruct Hview; lia).
    cbn [mbind outcome_bind].
    replace (Z.succ (Z.of_nat m)) with (Z.of_nat (S m)) by lia.
    replace (Z.pred (Z.of_nat (S k))) with (Z.of_nat k) by lia.
    rewrite IH by lia. f_equal.
    rewrite <- app_assoc, <- encode_block_app. do 2 f_equal.
    replace (Z.to_nat (Z.of_nat m * view_width a))
      with (m * Z.to_nat (view_width a))%nat
      by (rewrite Z2Nat.inj_mul, Nat2Z.id by (destruct Hview; lia);
          reflexivity).
    replace (S m * Z.to_nat (view_width a))%nat
      with (m * Z.to_nat (view_width a) + Z.to_nat (view_width a))%nat
      by lia.
    rewrite <- drop_drop, take_take_drop. f_equal.
Qed.

Lemma saveNative_bytes a :
  view_ok a -> buffer_ok a ->
  saveNative a true
  = Returns
      (int_to_bytes (total_height a) ++ int_to_bytes (total_width a)
       ++ int_to_bytes (view_height a) ++ int_to_bytes (view_width a)
       ++ int_to_bytes (view_xoff a) ++ int_to_bytes (view_yoff a)
       ++ int_to_bytes (num_data_cells a) ++ to_bytes (no_data a)
       ++ encode_block (data a)).
Proof.
  intros Hview Hbuf. unfold saveNative. cbn [negb]. cbv zeta.
  pose proof (saveNative_rows a (Z.to_nat (view_height a)) 0) as Hrows.
  rewrite Z2Nat.id in Hrows by apply Hview. cbn [Z.of_nat] in Hrows.
  rewrite Hrows by (try assumption; lia).
  rewrite drop_0, take_ge.
  - rewrite <- !app_assoc. reflexivity.
  - unfold buffer_ok in Hbuf. rewrite viewSize_view_ok in Hbuf by exact Hview.
    destruct Hview as (Hw & Hh & _). nia.
Qed.

(** The rows [m], ..., [m+k-1] as [loadNative] reads them over the freshly
    allocated cells [junk]. *)
Lemma loadNative_rows (w : Z) (k m : nat) (done junk todo : list T)
    (rest : list byte) :
  0 <= w -> (Z.of_nat m + Z.of_nat k) * w <= INT_MAX ->
  length done = (m * Z.to_nat w)%nat ->
  length junk = (k * Z.to_nat w)%nat ->
  length todo = (k * Z.to_nat w)%nat ->
  for_each (seqZ (Z.of_nat m) (Z.of_nat k))
    (fun y '(d, fin) =>
       old ← vec_block d (int_mul y w) w;
       let '(bs, fin) :=
         stream_read (Z.to_nat w * sizeof_T) (encode_block old) fin in
       d ← vec_store_block d (int_mul y w) (decode_block (length old) bs);
       Returns (d, fin))
    (done ++ junk, mkIstream true (encode_block todo ++ rest))
  = Returns (done ++ todo, mkIstream true rest).
Proof.
  intros Hw. revert m done junk todo.
  induction k as [|k IH]; intros m done junk todo Hmax Hdone Hjunk Htodo.
  - destruct junk; [|discriminate]. destruct todo; [|discriminate].
    reflexivity.
  - rewrite seqZ_cons by lia. cbn [for_each].
    set (wn := Z.to_nat w) in *.
    assert (Hoff : int_mul (Z.of_nat m) w = Z.of_nat m * w).
    { apply int_mul_id. unfold in_int, INT_MIN, INT_MAX in *. nia. }
    assert (Hoffn : Z.to_nat (Z.of_nat m * w) = (m * wn)%nat).
    { unfold wn. rewrite Z2Nat.inj_mul, Nat2Z.id by lia. reflexivity. }
    rewrite Hoff.
    rewrite <- (take_drop wn junk), <- (take_drop wn todo).
    cbn [Nat.mul] in Hjunk, Htodo.
    assert (Hj1 : length (take wn junk) = wn) by (rewrite length_take; lia).
    assert (Hr1 : length (take wn todo) = wn) by (rewrite length_take; lia).
    assert (Hj2 : length (drop wn junk) = (k * wn)%nat)
      by (rewrite length_drop; lia).
    assert (Hr2 : length (drop wn todo) = (k * wn)%nat)
      by (rewrite length_drop; lia).
    generalize dependent (take wn junk). intros j1 Hj1.
    generalize dependent (drop wn junk). intros j2 Hj2.
    generalize dependent (take wn todo). intros r1 Hr1.
    generalize dependent (drop wn todo). intros r2 Hr2.
    rewrite vec_block_in_range;
      [|nia|lia|rewrite !length_app; unfold wn in *; nia].
    cbn [mbind outcome_bind]. rewrite Hoffn.
    rewrite drop_app_length' by (symmetry; exact Hdone).
    rewrite take_app_length' by (symmetry; fold wn; exact Hj1).
    rewrite encode_block_app, <- app_assoc.
    rewrite stream_read_exact
      by (rewrite encode_block_length; fold wn; congruence).
    rewrite Hj1, <- Hr1, <- (app_nil_r (encode_block r1)).
    rewrite decode_encode_block. rewrite Hr1.
    unfold vec_store_block.
    destruct (Z.leb_spec 0 (Z.of_nat m * w)); [|nia].
    destruct (Z.leb_spec (Z.of_nat m * w + Z.of_nat (length r1))
                (Z.of_nat (length (done ++ j1 ++ j2))));
      [|rewrite !length_app in *; unfold wn in *; nia].
    cbn [andb mbind outcome_bind]. rewrite Hoffn.
    rewrite take_app_length' by (symmetry; exact Hdone).
    replace (m * wn + length r1)%nat with (length (done ++ j1))
      by (rewrite length_app; lia).
    rewrite (app_assoc done j1 j2), drop_app_length.
    replace (Z.succ (Z.of_nat m)) with (Z.of_nat (S m)) by lia.
    replace (Z.pred (Z.of_nat (S k))) with (Z.of_nat k) by lia.
    rewrite (app_assoc done r1 j2).
    rewrite IH; [rewrite <- app_assoc; reflexivity|lia| | |].
    + rewrite length_app. cbn [Nat.mul]. lia.
    + exact Hj2.
    + exact Hr2.
Qed.
End NativeRoundTrip.

(** What every constructor and load establishes: the total extents are the
    view extents. *)
Lemma total_is_view_established {T : Type} `{Elem T} (a : Array2D T) :
  (forall (nd : T) dt,
     total_width (Array2D_new nd dt) = view_width (Array2D_new nd dt)
     /\ total_height (Array2D_new nd dt) = view_height (Array2D_new nd dt))
  /\ (forall w h v a', resize a w h v = Returns a' ->
        total_width a' = view_width a' /\ total_height a' = view_height a')
  /\ (forall fin xo yo pw ph a',
        loadGDAL a (Some fin) xo yo pw ph = Returns a' ->
        total_width a' = view_width a' /\ total_height a' = view_height a').
Proof.
  split; [|split].
  - intros nd dt. split; reflexivity.
  - intros w h v a' Hr. apply resize_inv in Hr as [_ ->]. split; reflexivity.
  - intros fin xo yo pw ph a' Hl.
    apply loadGDAL_view_extent in Hl as (_ & _ & _ & _ & Hw & Hh).
    split; assumption.
Qed.

(** C1. An array as the class builds it (header fields that are [int]s,
    non-negative view extents whose product is an [int], a buffer of
    [view_width*view_height] cells, total extents equal to the view
    extents) is saved by [saveNative], and [loadNative] of the file into
    any array of the same element type gives an array with the same view
    extents, offsets, total extents, count, sentinel and cells; the
    geotransform and the projection are those of the array loaded into. *)
Theorem native_round_trip_identical {T : Type} `{Elem T} `{NativeRepr T}
    `{!NativeReprLaws T} (a b : Array2D T) :
  header_ok a -> view_ok a -> buffer_ok a ->
  total_width a = view_width a -> total_height a = view_height a ->
  exists (bytes : list byte) (a' : Array2D T),
    saveNative a true = Returns bytes
    /\ loadNative b (Some bytes) = Returns a'
    /\ view_width a' = view_width a
    /\ view_height a' = view_height a
    /\ view_xoff a' = view_xoff a
    /\ view_yoff a' = view_yoff a
    /\ total_width a' = total_width a
    /\ total_height a' = total_height a
    /\ num_data_cells a' = num_data_cells a
    /\ no_data a' = no_data a
    /\ data a' = data a
    /\ geotransform a' = geotransform b
    /\ projection a' = projection b.
Proof.
  intros (Hth & Htw & Hvh & Hvw & Hxo & Hyo & Hn) Hview Hbuf Etw Eth.
  eexists. eexists. split; [apply saveNative_bytes; assumption|].
  unfold loadNative.
  repeat (rewrite read_int_exact by assumption; cbv beta iota zeta).
  rewrite read_T_exact. cbv beta iota zeta.
  cbn [view_width view_height set_total_height set_total_width
       set_view_height set_view_width set_view_xoff set_view_yoff
       set_num_data_cells set_no_data].
  unfold resize.
  change (int_mul (view_width a) (view_height a)) with (viewSize a).
  pose proof (viewSize_view_ok a Hview) as Hsize.
  destruct Hview as (Hw & Hh & Hmax).
  destruct (Z.ltb_spec (viewSize a) 0); [nia|].
  cbv zeta. cbn [mbind outcome_bind].
  cbn [view_width view_height data set_total_height set_total_width
       set_view_height set_view_width set_view_xoff set_view_yoff
       set_num_data_cells set_no_data set_data].
  unfold buffer_ok in Hbuf.
  pose proof (loadNative_rows (view_width a) (Z.to_nat (view_height a)) 0 []
                (replicate (Z.to_nat (viewSize a)) elem_default) (data a) []
                Hw) as Hrows.
  rewrite Z2Nat.id, !app_nil_r in Hrows by exact Hh.
  change (Z.of_nat 0) with 0 in Hrows. cbn [app] in Hrows.
  rewrite Hrows.
  - cbn [mbind outcome_bind]. split; [reflexivity|]. cbn.
    rewrite Etw, Eth. repeat split.
  - lia.
  - reflexivity.
  - rewrite length_replicate, Hsize. rewrite Z2Nat.inj_mul by lia. lia.
  - rewrite <- Z2Nat.inj_mul by lia.
    rewrite Z.mul_comm, <- Hsize, <- Hbuf. symmetry. apply Nat2Z.id.
Qed.

Lemma native_round_trip_identical_witness :
  exists (bytes : list byte) (a' : Array2D uint8_t),
    saveNative freestanding_2x1 true = Returns bytes
    /\ loadNative (Array2D_new x07 GDT_Unknown) (Some bytes) = Returns a'
    /\ total_width a' = total_width freestanding_2x1
    /\ total_height a' = total_height freestanding_2x1
    /\ no_data a' = no_data freestanding_2x1
    /\ data a' = data freestanding_2x1.
Proof.
  destruct (native_round_trip_identical freestanding_2x1
              (Array2D_new x07 GDT_Unknown))
    as (bytes & a' & Hs & Hl & _ & _ & _ & _ & Htw & Hth & _ & Hnd & Hd & _).
  - vm_compute. repeat split; discriminate.
  - vm_compute. repeat split; discriminate.
  - reflexivity.
  - reflexivity.
  - reflexivity.
  - exists bytes, a'.
    split; [exact Hs|]. split; [exact Hl|]. split; [exact Htw|].
    split; [exact Hth|]. split; [exact Hnd|exact Hd].
Defined.

(** X1. What the round trip keeps: an array with [int] header fields,
    non-negative view extents and a consistent buffer is saved, and loading
    the file into any array [b] gives back its view extents, offsets, count,
    sentinel and cells; the total extents come back as the view extents,
    and the geotransform and projection stay those of [b]. *)
Lemma saveNative_loadNative {T : Type} `{Elem T} `{NativeRepr T}
    `{!NativeReprLaws T} (a b : Array2D T) :
  header_ok a -> view_ok a -> buffer_ok a ->
  exists (bytes : list byte) (a' : Array2D T),
    saveNative a true = Returns bytes
    /\ loadNative b (Some bytes) = Returns a'
    /\ view_width a' = view_width a
    /\ view_height a' = view_height a
    /\ view_xoff a' = view_xoff a
    /\ view_yoff a' = view_yoff a
    /\ num_data_cells a' = num_data_cells a
    /\ no_data a' = no_data a
    /\ data a' = data a
    /\ total_width a' = view_width a
    /\ total_height a' = view_height a
    /\ geotransform a' = geotransform b
    /\ projection a' = projection b.
Proof.
  intros (Hth & Htw & Hvh & Hvw & Hxo & Hyo & Hn) Hview Hbuf.
  eexists. eexists. split; [apply saveNative_bytes; assumption|].
  unfold loadNative.
  repeat (rewrite read_int_exact by assumption; cbv beta iota zeta).
  rewrite read_T_exact. cbv beta iota zeta.
  cbn [view_width view_height set_total_height set_total_width
       set_view_height set_view_width set_view_xoff set_view_yoff
       set_num_data_cells set_no_data].
  unfold resize.
  change (int_mul (view_width a) (view_height a)) with (viewSize a).
  pose proof (viewSize_view_ok a Hview) as Hsize.
  destruct Hview as (Hw & Hh & Hmax).
  destruct (Z.ltb_spec (viewSize a) 0); [nia|].
  cbv zeta. cbn [mbind outcome_bind].
  cbn [view_width view_height data set_total_height set_total_width
       set_view_height set_view_width set_view_xoff set_view_yoff
       set_num_data_cells set_no_data set_data].
  unfold buffer_ok in Hbuf.
  pose proof (loadNative_rows (view_width a) (Z.to_nat (view_height a)) 0 []
                (replicate (Z.to_nat (viewSize a)) elem_default) (data a) []
                Hw) as Hrows.
  rewrite Z2Nat.id, !app_nil_r in Hrows by exact Hh.
  change (Z.of_nat 0) with 0 in Hrows. cbn [app] in Hrows.
  rewrite Hrows.
  - cbn [mbind outcome_bind]. split; [reflexivity|]. cbn. repeat split.
  - lia.
  - reflexivity.
  - rewrite length_replicate, Hsize. rewrite Z2Nat.inj_mul by lia. lia.
  - rewrite <- Z2Nat.inj_mul by lia.
    rewrite Z.mul_comm, <- Hsize, <- Hbuf. symmetry. apply Nat2Z.id.
Qed.

Lemma saveNative_loadNative_witness :
  exists (bytes : list byte) (a' : Array2D uint8_t),
    saveNative freestanding_2x1 true = Returns bytes
    /\ loadNative ones_2x2 (Some bytes) = Returns a'
    /\ data a' = data freestanding_2x1
    /\ total_width a' = total_width freestanding_2x1.
Proof.
  destruct (saveNative_loadNative freestanding_2x1 ones_2x2)
    as (bytes & a' & Hs & Hl & _ & _ & _ & _ & _ & _ & Hd & Htw & _).
  - vm_compute. repeat split; discriminate.
  - vm_compute. repeat split; discriminate.
  - reflexivity.
  - exists bytes, a'. repeat split; assumption.
Defined.

(** X2. Whatever the file, a load that completes leaves the total extents
    equal to the view extents. *)
Lemma loadNative_total_is_view {T : Type} `{Elem T} `{NativeRepr T}
    (a : Array2D T) (file : option (list byte)) (a' : Array2D T) :
  loadNative a file = Returns a' ->
  total_width a' = view_width a' /\ total_height a' = view_height a'.
Proof.
  unfold loadNative. destruct file as [bytes|]; [|discriminate].
  repeat (cbv beta iota zeta;
          match goal with
          | |- context [read_int ?x ?s] => destruct (read_int x s) as [? ?]
          | |- context [read_T ?x ?s] => destruct (read_T x s) as [? ?]
          end).
  cbv beta iota zeta.
  destruct (resize _ _ _ _) as [a1| | |] eqn:Er; cbn; try discriminate.
  destruct (for_each _ _ _) as [[d fin]| | |] eqn:El; cbn; try discriminate.
  intros [= <-]. apply resize_inv in Er as [_ ->]. cbn. split; reflexivity.
Qed.

Lemma loadNative_total_is_view_witness :
  exists a' : Array2D uint8_t,
    loadNative ones_2x2 (Some []) = Returns a'
    /\ total_width a' = view_width a' /\ total_height a' = view_height a'.
Proof.
  eexists. split; [vm_compute; reflexivity|].
  eapply (loadNative_total_is_view ones_2x2 (Some [])).
  vm_compute. reflexivity.
Defined.

(** * Further properties *)

(** ** Cells and coordinates *)

Section Cells.
Context {T : Type} `{Elem T}.
Implicit Type a : Array2D T.

Lemma view_positive a (i : Z) :
  0 <= view_width a -> 0 <= view_height a ->
  0 <= i < view_width a * view_height a ->
  0 < view_width a /\ 0 < view_height a.
Proof.
  intros Hw Hh Hi.
  destruct (Z.eq_dec (view_width a) 0) as [E|E]; [rewrite E in Hi; lia|].
  destruct (Z.eq_dec (view_height a) 0) as [E'|E'];
    [rewrite E', Z.mul_0_r in Hi; lia|].
  lia.
Qed.

Lemma in_grid_true a (x y : Z) :
  in_grid a x y = true <-> 0 <= x < view_width a /\ 0 <= y < view_height a.
Proof.
  unfold in_grid.
  destruct (Z.leb_spec 0 x), (Z.ltb_spec x (view_width a)),
    (Z.leb_spec 0 y), (Z.ltb_spec y (view_height a)); cbn;
    split; intros; try discriminate; try reflexivity; lia.
Qed.

Lemma cell_index a (x y : Z) :
  view_ok a -> buffer_ok a ->
  0 <= x < view_width a -> 0 <= y < view_height a ->
  xyToI a x y = y * view_width a + x
  /\ 0 <= y * view_width a + x < Z.of_nat (length (data a))
  /\ y * view_width a + x < viewSize a.
Proof.
  intros Hview Hbuf Hx Hy.
  pose proof (viewSize_view_ok a Hview) as Hsize.
  destruct Hview as (Hw & Hh & Hmax).
  destruct (xyToI_in_view a x y Hmax Hx Hy) as [Hi Hr].
  unfold buffer_ok in Hbuf. rewrite Hbuf, Hsize. lia.
Qed.

Lemma cell_xy_in_view a (x y : Z) :
  view_ok a -> buffer_ok a ->
  0 <= x < view_width a -> 0 <= y < view_height a ->
  exists v, data a !! Z.to_nat (y * view_width a + x) = Some v
            /\ cell_xy a x y = Returns v.
Proof.
  intros Hview Hbuf Hx Hy.
  destruct (cell_index a x y Hview Hbuf Hx Hy) as (Hi & Hr & _).
  destruct (vec_load_in_range (data a) _ Hr) as (v & Hv & Hl).
  exists v. split; [exact Hv|]. unfold cell_xy.
  destruct (Z.geb_spec x 0); [|lia]. destruct (Z.geb_spec y 0); [|lia].
  destruct (Z.ltb_spec x (view_width a)); [|lia].
  destruct (Z.ltb_spec y (view_height a)); [|lia].
  cbn [negb]. rewrite Hi. exact Hl.
Qed.

Lemma row_major_injective (w x y x' y' : Z) :
  0 <= x < w -> 0 <= y -> 0 <= x' < w -> 0 <= y' ->
  y * w + x = y' * w + x' -> x = x' /\ y = y'.
Proof.
  intros Hx Hy Hx' Hy' E.
  destruct (rem_quot_row_major w x y Hx Hy) as [R Q].
  destruct (rem_quot_row_major w x' y' Hx' Hy') as [R' Q'].
  rewrite E in R, Q. split; congruence.
Qed.
End Cells.

(** X3. On a consistent array the bounds asserts of [operator()(x, y)] fire
    exactly outside [in_grid]; inside, the read answers the cell at
    [y*view_width + x], the read by linear index answers the same cell,
    and [isNoData] compares that cell with the sentinel. *)
Theorem cell_xy_in_grid {T : Type} `{Elem T} (a : Array2D T) (x y : Z) :
  view_ok a -> buffer_ok a ->
  (cell_xy a x y = Aborts <-> in_grid a x y = false)
  /\ (in_grid a x y = true ->
      exists v, data a !! Z.to_nat (y * view_width a + x) = Some v
        /\ cell_xy a x y = Returns v
        /\ cell_i a (xyToI a x y) = Returns v
        /\ isNoData a x y = Returns (elem_eqb v (no_data a))).
Proof.
  intros Hview Hbuf. split.
  - destruct (in_grid a x y) eqn:E.
    + apply in_grid_true in E as [Hx Hy].
      destruct (cell_xy_in_view a x y Hview Hbuf Hx Hy) as (v & _ & ->).
      split; discriminate.
    + split; [reflexivity|]. intros _. unfold in_grid in E. unfold cell_xy.
      destruct (Z.geb_spec x 0); [|reflexivity].
      destruct (Z.geb_spec y 0); [|reflexivity].
      destruct (Z.ltb_spec x (view_width a)); [|reflexivity].
      destruct (Z.ltb_spec y (view_height a)); [|reflexivity].
      destruct (Z.leb_spec 0 x); [|lia]. destruct (Z.leb_spec 0 y); [|lia].
      discriminate.
  - intros E. apply in_grid_true in E as [Hx Hy].
    destruct (cell_xy_in_view a x y Hview Hbuf Hx Hy) as (v & Hv & Hc).
    destruct (cell_index a x y Hview Hbuf Hx Hy) as (Hi & Hr & Hs).
    destruct (vec_load_in_range (data a) _ Hr) as (v' & Hv' & Hl).
    assert (v' = v) by congruence. subst v'.
    exists v. repeat split; try assumption.
    + unfold cell_i. rewrite Hi.
      destruct (Z.geb_spec (y * view_width a + x) 0); [|lia].
      fold (viewSize a).
      destruct (Z.ltb_spec (y * view_width a + x) (viewSize a)); [|lia].
      exact Hl.
    + unfold isNoData. rewrite Hi, Hl. reflexivity.
Qed.

Lemma cell_xy_in_grid_witness :
  (cell_xy ones_2x2 2 0 = Aborts <-> in_grid ones_2x2 2 0 = false)
  /\ (in_grid ones_2x2 1 1 = true ->
      exists v, data ones_2x2 !! Z.to_nat (1 * view_width ones_2x2 + 1)
                = Some v
        /\ cell_xy ones_2x2 1 1 = Returns v
        /\ cell_i ones_2x2 (xyToI ones_2x2 1 1) = Returns v
        /\ isNoData ones_2x2 1 1 = Returns (elem_eqb v (no_data ones_2x2))).
Proof.
  split.
  - apply (cell_xy_in_grid ones_2x2 2 0).
    + vm_compute. repeat split; discriminate.
    + reflexivity.
  - apply (cell_xy_in_grid ones_2x2 1 1).
    + vm_compute. repeat split; discriminate.
    + reflexivity.
Defined.

(** X4. A cell written through [operator()(x, y)] reads back, every other
    cell of the view reads as before, and the write leaves the extents, the
    sentinel and the cached count as they were. *)
Theorem set_cell_xy_read_back {T : Type} `{Elem T} (a : Array2D T)
    (x y : Z) (v : T) :
  view_ok a -> buffer_ok a ->
  0 <= x < view_width a -> 0 <= y < view_height a ->
  exists a', set_cell_xy a x y v = Returns a'
    /\ cell_xy a' x y = Returns v
    /\ (forall x' y', 0 <= x' < view_width a -> 0 <= y' < view_height a ->
          (x', y') <> (x, y) -> cell_xy a' x' y' = cell_xy a x' y')
    /\ buffer_ok a'
    /\ view_width a' = view_width a /\ view_height a' = view_height a
    /\ no_data a' = no_data a
    /\ num_data_cells a' = num_data_cells a.
Proof.
  intros Hview Hbuf Hx Hy.
  destruct (cell_index a x y Hview Hbuf Hx Hy) as (Hi & Hr & _).
  set (a' := set_data a (<[Z.to_nat (y * view_width a + x) := v]> (data a))).
  assert (Hset : set_cell_xy a x y v = Returns a').
  { unfold set_cell_xy.
    destruct (Z.geb_spec x 0); [|lia]. destruct (Z.geb_spec y 0); [|lia].
    destruct (Z.ltb_spec x (view_width a)); [|lia].
    destruct (Z.ltb_spec y (view_height a)); [|lia].
    cbn [negb]. rewrite Hi, vec_store_in_range by exact Hr. reflexivity. }
  assert (Hbuf' : buffer_ok a').
  { apply set_data_buffer_ok; [apply length_insert|exact Hbuf]. }
  assert (Hview' : view_ok a') by exact Hview.
  exists a'. split; [exact Hset|]. split; [|split].
  - destruct (cell_xy_in_view a' x y Hview' Hbuf' Hx Hy) as (u & Hu & ->).
    cbn in Hu. rewrite list_lookup_insert_eq in Hu by lia. congruence.
  - intros x' y' Hx' Hy' Hne.
    destruct (cell_xy_in_view a' x' y' Hview' Hbuf' Hx' Hy')
      as (u & Hu & ->).
    destruct (cell_xy_in_view a x' y' Hview Hbuf Hx' Hy') as (u' & Hu' & ->).
    cbn in Hu. rewrite list_lookup_insert_ne in Hu; [congruence|].
    intros E. apply Hne.
    destruct (cell_index a x' y' Hview Hbuf Hx' Hy') as (_ & Hr' & _).
    destruct (row_major_injective (view_width a) x' y' x y) as [-> ->];
      try lia. reflexivity.
  - repeat split. exact Hbuf'.
Qed.

Lemma set_cell_xy_read_back_witness :
  exists a', set_cell_xy ones_2x2 1 0 x09 = Returns a'
    /\ cell_xy a' 1 0 = Returns x09.
Proof.
  destruct (set_cell_xy_read_back ones_2x2 1 0 x09)
    as (a' & Hs & Hr & _).
  - vm_compute. repeat split; discriminate.
  - reflexivity.
  - simpl. lia.
  - simpl. lia.
  - exists a'. split; assumption.
Defined.

(** X5. A linear index of the view converts to a cell inside the view, and
    the neighbour at offset (0, 0) is the index itself. *)
Theorem iToxy_in_grid {T : Type} (a : Array2D T) (i : Z) :
  view_ok a -> 0 <= i < view_width a * view_height a ->
  exists x y, iToxy a i = Returns (x, y)
    /\ in_grid a x y = true
    /\ nToI a i 0 0 = Returns i.
Proof.
  intros (Hw & Hh & Hmax) Hi.
  destruct (view_positive a i Hw Hh Hi) as [Hw0 Hh0].
  pose proof (Z.rem_bound_pos i (view_width a) ltac:(lia) Hw0) as Hx.
  pose proof (Z.quot_pos i (view_width a) ltac:(lia) Hw0) as Hy.
  assert (Hy' : Z.quot i (view_width a) < view_height a)
    by (apply Z.quot_lt_upper_bound; lia).
  exists (Z.rem i (view_width a)), (Z.quot i (view_width a)).
  split; [apply iToxy_defined; lia|]. split.
  - apply in_grid_true. lia.
  - rewrite nToI_unit_offsets by lia. rewrite !Z.add_0_r.
    replace (in_grid a (Z.rem i (view_width a)) (Z.quot i (view_width a)))
      with true by (symmetry; apply in_grid_true; lia).
    f_equal. pose proof (Z.quot_rem' i (view_width a)). lia.
Qed.

Lemma iToxy_in_grid_witness :
  exists x y, iToxy grid_3x3 5 = Returns (x, y)
    /\ in_grid grid_3x3 x y = true
    /\ nToI grid_3x3 5 0 0 = Returns 5.
Proof.
  apply (iToxy_in_grid grid_3x3 5).
  - vm_compute. repeat split; discriminate.
  - simpl. lia.
Defined.

(** The neighbour of a cell of the view, by its coordinates. *)
Lemma nToI_neighbour_index {T : Type} (a : Array2D T) (x y dx dy : Z) :
  view_ok a -> in_grid a x y = true ->
  -1 <= dx <= 1 -> -1 <= dy <= 1 ->
  exists n, nToI a (xyToI a x y) dx dy = Returns n
    /\ (n = -1 <-> in_grid a (x + dx) (y + dy) = false)
    /\ (in_grid a (x + dx) (y + dy) = true ->
        n = xyToI a (x + dx) (y + dy)
        /\ 0 <= n < view_width a * view_height a).
Proof.
  intros (Hw & Hh & Hmax) Hg Hdx Hdy.
  apply in_grid_true in Hg as [Hx Hy].
  destruct (xyToI_in_view a x y Hmax Hx Hy) as [Hi Hr].
  destruct (rem_quot_row_major (view_width a) x y) as [R Q]; [lia..|].
  rewrite Hi, nToI_unit_offsets by lia. rewrite R, Q.
  destruct (in_grid a (x + dx) (y + dy)) eqn:E.
  - apply in_grid_true in E as [Hx' Hy'].
    destruct (xyToI_in_view a (x + dx) (y + dy) Hmax Hx' Hy') as [Hi' Hr'].
    eexists. split; [reflexivity|]. split; [|intros _; lia].
    split; [lia|discriminate].
  - exists (-1). split; [reflexivity|]. split; [tauto|discriminate].
Qed.

(** X6. For the offsets of the eight neighbours of a cell of the view,
    [nToI] answers -1 exactly when the neighbour is outside the view, and
    otherwise the linear index of the neighbour, which is an index of the
    view. *)
Theorem nToI_neighbours {T : Type} (a : Array2D T) (x y dx dy : Z) :
  view_ok a -> in_grid a x y = true ->
  -1 <= dx <= 1 -> -1 <= dy <= 1 ->
  exists n, nToI a (xyToI a x y) dx dy = Returns n
    /\ (n = -1 <-> in_grid a (x + dx) (y + dy) = false)
    /\ (in_grid a (x + dx) (y + dy) = true ->
        n = xyToI a (x + dx) (y + dy)
        /\ 0 <= n < view_width a * view_height a).
Proof. apply nToI_neighbour_index. Qed.

Lemma nToI_neighbours_witness :
  exists n, nToI grid_3x3 (xyToI grid_3x3 2 1) 1 0 = Returns n
    /\ (n = -1 <-> in_grid grid_3x3 (2 + 1) (1 + 0) = false)
    /\ (in_grid grid_3x3 (2 + 1) (1 + 0) = true ->
        n = xyToI grid_3x3 (2 + 1) (1 + 0)
        /\ 0 <= n < view_width grid_3x3 * view_height grid_3x3).
Proof.
  apply (nToI_neighbours grid_3x3 2 1 1 0).
  - vm_compute. repeat split; discriminate.
  - reflexivity.
  - lia.
  - lia.
Defined.

(** X7. A cell of the view is an edge cell exactly when one of its eight
    neighbours is outside the view, that is when [nToI] answers -1 for one
    of the unit offsets. *)
Theorem isEdgeCell_neighbour_off_grid {T : Type} (a : Array2D T)
    (x y : Z) :
  view_ok a -> in_grid a x y = true ->
  (isEdgeCell a x y = true <->
   exists dx dy, -1 <= dx <= 1 /\ -1 <= dy <= 1
     /\ nToI a (xyToI a x y) dx dy = Returns (-1)).
Proof.
  intros Hview Hg.
  pose proof Hview as (Hw & Hh & Hmax).
  pose proof Hg as Hg'. apply in_grid_true in Hg' as [Hx Hy].
  assert (Hbig : view_width a <= INT_MAX /\ view_height a <= INT_MAX)
    by nia.
  assert (Hedge : isEdgeCell a x y = true <->
                  x = 0 \/ y = 0 \/ x = view_width a - 1
                  \/ y = view_height a - 1).
  { unfold isEdgeCell. unfold INT_MAX in Hbig.
    rewrite !int_sub_id by (unfold in_int, INT_MIN, INT_MAX; lia).
    destruct (Z.eqb_spec x 0), (Z.eqb_spec y 0),
      (Z.eqb_spec x (view_width a - 1)), (Z.eqb_spec y (view_height a - 1));
      cbn; split; intros; try discriminate; try reflexivity; lia. }
  assert (Hoff : forall dx dy, -1 <= dx <= 1 -> -1 <= dy <= 1 ->
            (nToI a (xyToI a x y) dx dy = Returns (-1)
             <-> in_grid a (x + dx) (y + dy) = false)).
  { intros dx dy Hdx Hdy.
    destruct (nToI_neighbour_index a x y dx dy Hview Hg Hdx Hdy)
      as (n & -> & Hn & _).
    rewrite <- Hn. split; [intros [= ->]; reflexivity|intros ->; reflexivity]. }
  rewrite Hedge. split.
  - intros [E|[E|[E|E]]].
    + exists (-1), 0. repeat split; try lia. apply Hoff; try lia.
      destruct (in_grid a (x + -1) (y + 0)) eqn:G; [|reflexivity].
      apply in_grid_true in G. lia.
    + exists 0, (-1). repeat split; try lia. apply Hoff; try lia.
      destruct (in_grid a (x + 0) (y + -1)) eqn:G; [|reflexivity].
      apply in_grid_true in G. lia.
    + exists 1, 0. repeat split; try lia. apply Hoff; try lia.
      destruct (in_grid a (x + 1) (y + 0)) eqn:G; [|reflexivity].
      apply in_grid_true in G. lia.
    + exists 0, 1. repeat split; try lia. apply Hoff; try lia.
      destruct (in_grid a (x + 0) (y + 1)) eqn:G; [|reflexivity].
      apply in_grid_true in G. lia.
  - intros (dx & dy & Hdx & Hdy & Hn). apply Hoff in Hn; try assumption.
    destruct (Z.eq_dec x 0), (Z.eq_dec y 0),
      (Z.eq_dec x (view_width a - 1)), (Z.eq_dec y (view_height a - 1));
      try tauto.
    assert (G : in_grid a (x + dx) (y + dy) = true)
      by (apply in_grid_true; lia).
    congruence.
Qed.

Lemma isEdgeCell_neighbour_off_grid_witness :
  isEdgeCell grid_3x3 1 1 = true <->
  exists dx dy, -1 <= dx <= 1 /\ -1 <= dy <= 1
    /\ nToI grid_3x3 (xyToI grid_3x3 1 1) dx dy = Returns (-1).
Proof.
  apply (isEdgeCell_neighbour_off_grid grid_3x3 1 1).
  - vm_compute. repeat split; discriminate.
  - reflexivity.
Defined.

(** ** Bulk writes *)

(** A loop of stores of one value: the cells whose index the loop visits
    hold the value, the others are as before. *)
Lemma store_loop_spec {A : Type} (idx : list Z) (f : Z -> Z) (v : A)
    (d : list A) :
  (forall i, i ∈ idx -> 0 <= f i < Z.of_nat (length d)) ->
  exists d',
    for_each idx (fun i d => vec_store d (f i) v) d = Returns d'
    /\ length d' = length d
    /\ forall j : Z, 0 <= j < Z.of_nat (length d) ->
         d' !! Z.to_nat j
         = if bool_decide (j ∈ f <$> idx) then Some v else d !! Z.to_nat j.
Proof.
  revert d. induction idx as [|i idx IH]; intros d Hidx.
  - exists d. split; [reflexivity|]. split; [reflexivity|].
    intros j Hj. reflexivity.
  - cbn [for_each]. rewrite vec_store_in_range by (apply Hidx; left).
    cbn [mbind outcome_bind].
    destruct (IH (<[Z.to_nat (f i) := v]> d)) as (d' & Hd' & Hlen & Hcells).
    { intros k Hk. rewrite length_insert. apply Hidx. right. exact Hk. }
    exists d'. split; [exact Hd'|]. rewrite length_insert in Hlen, Hcells.
    split; [exact Hlen|]. intros j Hj. rewrite Hcells by exact Hj.
    rewrite fmap_cons.
    destruct (bool_decide (j ∈ f <$> idx)) eqn:E.
    + apply bool_decide_eq_true in E.
      rewrite bool_decide_eq_true_2 by (right; exact E). reflexivity.
    + apply bool_decide_eq_false in E.
      destruct (Z.eq_dec j (f i)) as [->|Hne].
      * rewrite bool_decide_eq_true_2 by left.
        apply list_lookup_insert_eq.
        pose proof (Hidx i ltac:(left)). lia.
      * rewrite bool_decide_eq_false_2
          by (intros [?|?]%elem_of_cons; tauto).
        apply list_lookup_insert_ne.
        pose proof (Hidx i ltac:(left)). lia.
Qed.

(** X8. On a consistent array, [setRow(y, val)] on a row of the view
    completes; afterwards every cell of row [y] reads [val], every cell of
    another row reads as before, and the buffer is still consistent. *)
Theorem setRow_cells {T : Type} `{Elem T} (a : Array2D T) (y : Z)
    (val : T) :
  view_ok a -> buffer_ok a -> 0 <= y < view_height a ->
  exists a', setRow a y val = Returns a'
    /\ buffer_ok a'
    /\ view_width a' = view_width a /\ view_height a' = view_height a
    /\ forall x' y', 0 <= x' < view_width a -> 0 <= y' < view_height a ->
         cell_xy a' x' y'
         = if y' =? y then Returns val else cell_xy a x' y'.
Proof.
  intros Hview Hbuf Hy.
  pose proof (viewSize_view_ok a Hview) as Hsize.
  pose proof Hview as (Hw & Hh & Hmax).
  destruct (row_offset a y Hview Hy) as (Hoff & Hlo & Hhi).
  assert (Hf : forall x, 0 <= x < view_width a ->
            int_add (int_mul y (view_width a)) x = y * view_width a + x).
  { intros x Hx. rewrite Hoff. unfold INT_MAX in Hmax.
    apply int_add_id. unfold in_int, INT_MIN, INT_MAX. lia. }
  unfold buffer_ok in Hbuf. rewrite Hsize in Hbuf.
  destruct (store_loop_spec (seqZ 0 (view_width a))
              (fun x => int_add (int_mul y (view_width a)) x) val (data a))
    as (d & Hd & Hlen & Hcells).
  { intros x Hx. apply elem_of_seqZ in Hx. rewrite Hf by lia. lia. }
  set (a' := set_data a d).
  assert (Hbuf' : buffer_ok a').
  { apply set_data_buffer_ok; [exact Hlen|].
    unfold buffer_ok. rewrite Hsize. exact Hbuf. }
  exists a'. split; [unfold setRow; rewrite Hd; reflexivity|].
  split; [exact Hbuf'|]. split; [reflexivity|]. split; [reflexivity|].
  intros x' y' Hx' Hy'.
  destruct (cell_xy_in_view a' x' y' Hview Hbuf' Hx' Hy') as (u & Hu & ->).
  cbn in Hu. rewrite Hcells in Hu by nia.
  destruct (Z.eqb_spec y' y) as [->|Hne].
  - rewrite bool_decide_eq_true_2 in Hu; [congruence|].
    apply list_elem_of_fmap. exists x'. split; [symmetry; apply Hf; lia|].
    apply elem_of_seqZ. lia.
  - rewrite bool_decide_eq_false_2 in Hu.
    + assert (Hbuf0 : buffer_ok a) by (unfold buffer_ok; lia).
      destruct (cell_xy_in_view a x' y' Hview Hbuf0 Hx' Hy')
        as (u' & Hu' & ->).
      congruence.
    + intros (x & E & Hx)%list_elem_of_fmap. apply elem_of_seqZ in Hx.
      rewrite Hf in E by lia.
      destruct (row_major_injective (view_width a) x' y' x y); lia.
Qed.

Lemma setRow_cells_witness :
  exists a', setRow ones_2x2 1 x09 = Returns a'
    /\ cell_xy a' 0 1 = Returns x09
    /\ cell_xy a' 0 0 = cell_xy ones_2x2 0 0.
Proof.
  destruct (setRow_cells ones_2x2 1 x09) as (a' & Hs & _ & _ & _ & Hc).
  - vm_compute. repeat split; discriminate.
  - reflexivity.
  - simpl. lia.
  - exists a'. split; [exact Hs|]. split.
    + apply (Hc 0 1); simpl; lia.
    + apply (Hc 0 0); simpl; lia.
Defined.

(** X9. On a consistent array, [setCol(x, val)] on a column of the view
    completes; afterwards every cell of column [x] reads [val], every cell
    of another column reads as before, and the buffer is still
    consistent. *)
Theorem setCol_cells {T : Type} `{Elem T} (a : Array2D T) (x : Z)
    (val : T) :
  view_ok a -> buffer_ok a -> 0 <= x < view_width a ->
  exists a', setCol a x val = Returns a'
    /\ buffer_ok a'
    /\ view_width a' = view_width a /\ view_height a' = view_height a
    /\ forall x' y', 0 <= x' < view_width a -> 0 <= y' < view_height a ->
         cell_xy a' x' y'
         = if x' =? x then Returns val else cell_xy a x' y'.
Proof.
  intros Hview Hbuf Hx.
  pose proof (viewSize_view_ok a Hview) as Hsize.
  pose proof Hview as (Hw & Hh & Hmax).
  assert (Hf : forall y, 0 <= y < view_height a ->
            int_add (int_mul y (view_width a)) x = y * view_width a + x
            /\ 0 <= y * view_width a + x < view_width a * view_height a).
  { intros y Hy. destruct (row_offset a y Hview Hy) as (-> & Hlo & Hhi).
    unfold INT_MAX in Hmax.
    rewrite int_add_id by (unfold in_int, INT_MIN, INT_MAX; lia). lia. }
  unfold buffer_ok in Hbuf. rewrite Hsize in Hbuf.
  destruct (store_loop_spec (seqZ 0 (view_height a))
              (fun y => int_add (int_mul y (view_width a)) x) val (data a))
    as (d & Hd & Hlen & Hcells).
  { intros y Hy. apply elem_of_seqZ in Hy.
    destruct (Hf y) as [-> ?]; lia. }
  set (a' := set_data a d).
  assert (Hbuf' : buffer_ok a').
  { apply set_data_buffer_ok; [exact Hlen|].
    unfold buffer_ok. rewrite Hsize. exact Hbuf. }
  exists a'. split; [unfold setCol; rewrite Hd; reflexivity|].
  split; [exact Hbuf'|]. split; [reflexivity|]. split; [reflexivity|].
  intros x' y' Hx' Hy'.
  destruct (cell_xy_in_view a' x' y' Hview Hbuf' Hx' Hy') as (u & Hu & ->).
  cbn in Hu. rewrite Hcells in Hu by nia.
  destruct (Z.eqb_spec x' x) as [->|Hne].
  - rewrite bool_decide_eq_true_2 in Hu; [congruence|].
    apply list_elem_of_fmap. exists y'.
    split; [symmetry; apply Hf; lia|]. apply elem_of_seqZ. lia.
  - rewrite bool_decide_eq_false_2 in Hu.
    + assert (Hbuf0 : buffer_ok a) by (unfold buffer_ok; lia).
      destruct (cell_xy_in_view a x' y' Hview Hbuf0 Hx' Hy')
        as (u' & Hu' & ->).
      congruence.
    + intros (y & E & Hy)%list_elem_of_fmap. apply elem_of_seqZ in Hy.
      destruct (Hf y) as [E' _]; [lia|]. rewrite E' in E.
      destruct (row_major_injective (view_width a) x' y' x y); lia.
Qed.

Lemma setCol_cells_witness :
  exists a', setCol ones_2x2 1 x09 = Returns a'
    /\ cell_xy a' 1 0 = Returns x09
    /\ cell_xy a' 0 0 = cell_xy ones_2x2 0 0.
Proof.
  destruct (setCol_cells ones_2x2 1 x09) as (a' & Hs & _ & _ & _ & Hc).
  - vm_compute. repeat split; discriminate.
  - reflexivity.
  - simpl. lia.
  - exists a'. split; [exact Hs|]. split.
    + apply (Hc 1 0); simpl; lia.
    + apply (Hc 0 0); simpl; lia.
Defined.

Lemma count_replicate {T : Type} `{Elem T} (nd val : T) (n : nat) :
  length (filter (fun v => elem_eqb v nd = false) (replicate n val))
  = if elem_eqb val nd then 0%nat else n.
Proof.
  induction n as [|n IH]; cbn [replicate].
  - destruct (elem_eqb val nd); reflexivity.
  - rewrite filter_cons. destruct (elem_eqb val nd) eqn:E.
    + rewrite decide_False by congruence. exact IH.
    + rewrite decide_True by reflexivity. cbn [length]. rewrite IH.
      reflexivity.
Qed.

(** X10. After [setAll(val)] the buffer has its old length and every
    element is [val]; a count taken afterwards is 0 when [val] equals the
    sentinel and the number of cells otherwise. *)
Theorem setAll_count {T : Type} `{Elem T} (a : Array2D T) (val : T) :
  Z.of_nat (length (data a)) <= INT_MAX ->
  data (setAll a val) = replicate (length (data a)) val
  /\ (forall i v, data (setAll a val) !! i = Some v -> v = val)
  /\ num_data_cells (countDataCells (setAll a val))
     = (if elem_eqb val (no_data a) then 0
        else Z.of_nat (length (data a))).
Proof.
  intros Hlen. split; [reflexivity|]. split.
  - intros i v Hv. cbn in Hv. apply lookup_replicate in Hv as [-> _].
    reflexivity.
  - rewrite countDataCells_brute_force
      by (cbn; rewrite length_replicate; exact Hlen).
    unfold brute_force_count.
    cbn [setAll data no_data set_data]. rewrite count_replicate.
    destruct (elem_eqb val (no_data a)); reflexivity.
Qed.

Lemma setAll_count_witness :
  num_data_cells (countDataCells (setAll ones_2x2 x00)) = 0
  /\ num_data_cells (countDataCells (setAll ones_2x2 x05)) = 4.
Proof.
  split.
  - destruct (setAll_count ones_2x2 x00) as (_ & _ & Hc);
      [vm_compute; discriminate|exact Hc].
  - destruct (setAll_count ones_2x2 x05) as (_ & _ & Hc);
      [vm_compute; discriminate|exact Hc].
Defined.

(** X11. [numDataCells] never answers a negative count for a buffer whose
    length is an [int] and whose cache holds -1 or a count; a second call
    answers the same value and changes nothing, and no call touches the
    cells, the sentinel or the extents. *)
Theorem numDataCells_repeatable {T : Type} `{Elem T} (a : Array2D T) :
  Z.of_nat (length (data a)) <= INT_MAX ->
  -1 <= num_data_cells a ->
  0 <= snd (numDataCells a)
  /\ numDataCells (fst (numDataCells a))
     = (fst (numDataCells a), snd (numDataCells a))
  /\ data (fst (numDataCells a)) = data a
  /\ no_data (fst (numDataCells a)) = no_data a
  /\ view_width (fst (numDataCells a)) = view_width a
  /\ view_height (fst (numDataCells a)) = view_height a.
Proof.
  intros Hlen Hc. unfold numDataCells.
  destruct (Z.eqb_spec (num_data_cells a) (-1)) as [E|E]; cbn [fst snd].
  - pose proof (countDataCells_brute_force a Hlen) as Hn.
    pose proof (brute_force_count_nonneg a) as H0.
    destruct (Z.eqb_spec (num_data_cells (countDataCells a)) (-1)); [lia|].
    split; [lia|]. repeat split.
  - destruct (Z.eqb_spec (num_data_cells a) (-1)); [contradiction|].
    split; [lia|]. repeat split.
Qed.

Lemma numDataCells_repeatable_witness :
  0 <= snd (numDataCells ones_2x2)
  /\ numDataCells (fst (numDataCells ones_2x2))
     = (fst (numDataCells ones_2x2), snd (numDataCells ones_2x2)).
Proof.
  destruct (numDataCells_repeatable ones_2x2) as (H0 & H1 & _).
  - vm_compute. discriminate.
  - vm_compute. discriminate.
  - split; assumption.
Defined.

(** X12. [resize(width, height, val)] with non-negative extents whose
    product is an [int] completes; afterwards the total and the view
    extents are the new ones, every cell of the view reads [val], and the
    offsets, the sentinel, the geotransform and the cached count are those
    held before the call. *)
Theorem resize_fills {T : Type} `{Elem T} (a : Array2D T)
    (width height : Z) (val : T) :
  0 <= width -> 0 <= height -> width * height <= INT_MAX ->
  exists a', resize a width height val = Returns a'
    /\ view_width a' = width /\ view_height a' = height
    /\ total_width a' = width /\ total_height a' = height
    /\ data a' = replicate (Z.to_nat (width * height)) val
    /\ (forall x y, 0 <= x < width -> 0 <= y < height ->
          cell_xy a' x y = Returns val)
    /\ view_xoff a' = view_xoff a /\ view_yoff a' = view_yoff a
    /\ no_data a' = no_data a
    /\ geotransform a' = geotransform a
    /\ num_data_cells a' = num_data_cells a.
Proof.
  intros Hw Hh Hmax.
  assert (Hn : int_mul width height = width * height).
  { apply int_mul_id. unfold in_int, INT_MIN, INT_MAX in *. nia. }
  destruct (resize_returns a width height val) as [a' Hr]; [rewrite Hn; nia|].
  pose proof (resize_buffer_ok a width height val a' Hr) as Hbuf.
  exists a'. split; [exact Hr|].
  apply resize_inv in Hr as [_ ->]. rewrite Hn in *.
  repeat split.
  intros x y Hx Hy.
  match type of Hbuf with buffer_ok ?b => set (a' := b) in * end.
  assert (Hview : view_ok a') by (repeat split; assumption).
  destruct (cell_xy_in_view a' x y Hview Hbuf Hx Hy) as (u & Hu & ->).
  cbn in Hu. apply lookup_replicate in Hu as [-> _]. reflexivity.
Qed.

Lemma resize_fills_witness :
  exists a', resize (fst (numDataCells ones_2x2)) 3 2 x07 = Returns a'
    /\ cell_xy a' 2 1 = Returns x07
    /\ num_data_cells a' = 4.
Proof.
  destruct (resize_fills (fst (numDataCells ones_2x2)) 3 2 x07)
    as (a' & Hr & _ & _ & _ & _ & _ & Hc & _ & _ & _ & _ & Hn);
    [lia|lia|vm_compute; discriminate|].
  exists a'. split; [exact Hr|]. split; [apply Hc; lia|exact Hn].
Defined.

(** X13. A consistent array compares equal to itself exactly when the
    sentinel and every cell compare equal to themselves under [T]'s
    [operator==]. *)
Theorem equals_reflexive {T : Type} `{Elem T} (a : Array2D T) :
  buffer_ok a ->
  (equals a a = Returns true <->
   elem_eqb (no_data a) (no_data a) = true
   /\ forall i v, data a !! i = Some v -> elem_eqb v v = true).
Proof.
  intros Hbuf. unfold equals, viewWidth, viewHeight, noData.
  rewrite !Z.eqb_refl. cbn [negb orb].
  destruct (elem_eqb (no_data a) (no_data a)) eqn:End; cbn [negb].
  - destruct (equal_cells_spec (data a) (data a)
                (seqZ 0 (int_mul (view_width a) (view_height a))) eq_refl)
      as (b & -> & Hiff).
    { intros i Hi. apply elem_of_seqZ in Hi.
      unfold buffer_ok, viewSize in Hbuf. lia. }
    split.
    + intros [= ->]. split; [reflexivity|]. intros i v Hv.
      apply (proj1 Hiff eq_refl (Z.of_nat i) v v);
        rewrite ?Nat2Z.id; try assumption.
      apply elem_of_seqZ. apply lookup_lt_Some in Hv.
      unfold buffer_ok, viewSize in Hbuf. lia.
    + intros [_ Hall]. f_equal. apply Hiff. intros i x y _ Hx Hy.
      assert (y = x) by congruence. subst y. eapply Hall, Hx.
  - split; [discriminate|]. intros [? _]. discriminate.
Qed.

Lemma equals_reflexive_witness : equals ones_2x2 ones_2x2 = Returns true.
Proof.
  apply (equals_reflexive ones_2x2); [reflexivity|].
  split; [reflexivity|]. intros i v _. destruct v; reflexivity.
Defined.

(** X14. An array built by [Array2D(width, height, val)] has no
    geotransform: [getCellArea] on it, and [saveGDAL] once the driver and
    the dataset are there, index an empty vector. *)
Theorem sized_array_has_no_geotransform {T : Type} `{Elem T} (nd0 : T)
    (dt0 : GDALDataType) (width height : Z) (val : T) (a : Array2D T) :
  Array2D_sized nd0 dt0 width height val = Returns a ->
  geotransform a = []
  /\ getCellArea a = Undefined
  /\ (elem_ctype <> c_other ->
      forall row_ok xoffset yoffset,
        saveGDAL a true true row_ok xoffset yoffset = Undefined).
Proof.
  unfold Array2D_sized. intros Hr. apply resize_inv in Hr as [_ ->].
  split; [reflexivity|]. split; [reflexivity|].
  intros Hty row_ok xoffset yoffset. unfold saveGDAL, myGDALType.
  destruct elem_ctype; try contradiction; reflexivity.
Qed.

Lemma sized_array_has_no_geotransform_witness :
  exists a : Array2D uint8_t,
    Array2D_sized x00 GDT_Unknown 2 2 x01 = Returns a
    /\ getCellArea a = Undefined.
Proof.
  eexists. split; [vm_compute; reflexivity|].
  eapply (sized_array_has_no_geotransform x00 GDT_Unknown 2 2 x01).
  vm_compute. reflexivity.
Defined.

(** X15. After [clear()] on an array whose view is not empty, the array
    is [empty()], every read of a cell of the view indexes past the buffer,
    and so does [saveNative]. *)
Theorem clear_then_use {T : Type} `{Elem T} `{NativeRepr T}
    (a : Array2D T) :
  view_ok a -> 0 < view_width a -> 0 < view_height a ->
  empty (clear a) = true
  /\ (forall x y, in_grid a x y = true -> cell_xy (clear a) x y = Undefined)
  /\ saveNative (clear a) true = Undefined.
Proof.
  intros Hview Hw Hh. split; [reflexivity|]. split.
  - intros x y Hg. apply in_grid_true in Hg as [Hx Hy]. unfold cell_xy.
    cbn [view_width view_height clear set_data].
    destruct (Z.geb_spec x 0); [|lia]. destruct (Z.geb_spec y 0); [|lia].
    destruct (Z.ltb_spec x (view_width a)); [|lia].
    destruct (Z.ltb_spec y (view_height a)); [|lia].
    cbn [negb data clear set_data]. unfold vec_load, vec_index. cbn [length].
    destruct (_ && _); reflexivity.
  - unfold saveNative. cbn [negb view_height view_width clear set_data].
    cbv zeta. rewrite seqZ_cons by lia. cbn [for_each].
    cbn [data clear set_data]. unfold vec_block. cbn [length].
    destruct (row_offset a 0 Hview) as (-> & _); [lia|].
    destruct (Z.leb_spec (0 * view_width a + view_width a) (Z.of_nat 0));
      [lia|].
    rewrite Bool.andb_false_r. reflexivity.
Qed.

Lemma clear_then_use_witness :
  cell_xy (clear ones_2x2) 1 1 = Undefined
  /\ saveNative (clear ones_2x2) true = Undefined.
Proof.
  destruct (clear_then_use ones_2x2) as (_ & Hc & Hs).
  - vm_compute. repeat split; discriminate.
  - reflexivity.
  - reflexivity.
  - split; [apply Hc; reflexivity|exact Hs].
Defined.

(** ** Files and datasets *)

(** X16. The file [saveNative] writes for a consistent array holds
    [HEADER_SIZE] bytes of header and [sizeof(T)] bytes for each cell of
    the view. *)
Theorem saveNative_file_size {T : Type} `{Elem T} `{NativeRepr T}
    `{!NativeReprLaws T} (a : Array2D T) :
  view_ok a -> buffer_ok a ->
  exists bytes, saveNative a true = Returns bytes
    /\ Z.of_nat (length bytes)
       = HEADER_SIZE (T := T) + viewSize a * Z.of_nat sizeof_T.
Proof.
  intros Hview Hbuf. eexists. split; [apply saveNative_bytes; assumption|].
  rewrite !length_app, !int_to_bytes_length, to_bytes_length,
    encode_block_length.
  unfold buffer_ok in Hbuf. unfold HEADER_SIZE. nia.
Qed.

Lemma saveNative_file_size_witness :
  exists bytes, saveNative window_2x1 true = Returns bytes
    /\ Z.of_nat (length bytes)
       = HEADER_SIZE (T := uint8_t) + viewSize window_2x1 * Z.of_nat sizeof_T.
Proof.
  apply (saveNative_file_size window_2x1).
  - vm_compute. repeat split; discriminate.
  - reflexivity.
Defined.

Lemma for_each_not_aborts {S : Type} (idx : list Z)
    (body : Z -> S -> outcome S) (s : S) :
  (forall i t, body i t <> Aborts) -> for_each idx body s <> Aborts.
Proof.
  intros Hbody. revert s. induction idx as [|i idx IH]; intros s; cbn.
  - discriminate.
  - pose proof (Hbody i s) as Hi.
    destruct (body i s) as [t| | |]; cbn; try discriminate;
      [apply IH|contradiction].
Qed.

(** X17. [loadGDAL] aborts on an assert exactly when the array already
    holds cells or an offset is negative, whatever the file and the
    requested size. *)
Theorem loadGDAL_aborts_iff {T : Type} `{Elem T} (a : Array2D T)
    (fin : option (GDALDataset T))
    (xOffset yOffset part_width part_height : Z) :
  loadGDAL a fin xOffset yOffset part_width part_height = Aborts
  <-> data a <> [] \/ xOffset < 0 \/ yOffset < 0.
Proof.
  unfold loadGDAL, empty.
  destruct (data a) as [|v d] eqn:Ed; cbn [negb];
    [|split; [left; discriminate|reflexivity]].
  destruct (Z.geb_spec xOffset 0); cbn [negb];
    [|split; [right; left; lia|reflexivity]].
  destruct (Z.geb_spec yOffset 0); cbn [negb];
    [|split; [right; right; lia|reflexivity]].
  split; [|intros [?|[?|?]]; [contradiction|lia|lia]].
  intros Hab. exfalso. revert Hab.
  destruct fin as [fin|]; [|discriminate].
  destruct (gd_geotransform fin) as [gt|]; [|discriminate].
  cbv zeta. unfold resize at 1.
  destruct (_ <? 0); [discriminate|]. cbv zeta. cbn [mbind outcome_bind].
  match goal with
  | |- context [for_each ?idx ?body ?s] =>
      pose proof (for_each_not_aborts idx body s) as Hloop;
      destruct (for_each idx body s) as [t| | |]
  end; cbn; try discriminate.
  intros _. apply Hloop; [|reflexivity].
  intros y t. destruct (gd_read_row _ _ _ _); [|discriminate].
  unfold vec_store_block. destruct (_ && _); discriminate.
Qed.

(** X18. With offsets inside the dataset and sums that are [int]s, the
    view [loadGDAL] makes has along each axis the requested extent cut at
    the edge of the dataset, except that a requested extent of 0 gives the
    whole extent of the dataset. *)
Theorem loadGDAL_window {T : Type} `{Elem T} (a : Array2D T)
    (fin : GDALDataset T) (xOffset yOffset part_width part_height : Z)
    (a' : Array2D T) :
  loadGDAL a (Some fin) xOffset yOffset part_width part_height = Returns a' ->
  xOffset < gd_xsize fin -> yOffset < gd_ysize fin ->
  in_int (xOffset + part_width) -> in_int (yOffset + part_height) ->
  in_int (gd_xsize fin - xOffset) -> in_int (gd_ysize fin - yOffset) ->
  view_width a'
  = (if part_width =? 0 then gd_xsize fin
     else Z.min part_width (gd_xsize fin - xOffset))
  /\ view_height a'
     = (if part_height =? 0 then gd_ysize fin
        else Z.min part_height (gd_ysize fin - yOffset))
  /\ view_xoff a' = xOffset /\ view_yoff a' = yOffset.
Proof.
  intros Hload Hx Hy Hxs Hys Hxd Hyd.
  apply loadGDAL_view_extent in Hload as (-> & -> & -> & -> & _).
  rewrite !int_add_id, !int_sub_id by assumption.
  repeat split.
  - destruct (Z.geb_spec (xOffset + part_width) (gd_xsize fin)),
      (Z.eqb_spec part_width 0);
      repeat match goal with
             | |- context [?u =? 0] => destruct (Z.eqb_spec u 0)
             end; lia.
  - destruct (Z.geb_spec (yOffset + part_height) (gd_ysize fin)),
      (Z.eqb_spec part_height 0);
      repeat match goal with
             | |- context [?u =? 0] => destruct (Z.eqb_spec u 0)
             end; lia.
Qed.

Lemma loadGDAL_window_witness :
  exists a',
    loadGDAL (Array2D_new x00 GDT_Unknown) (Some raster_10x10) 5 2 20 3
    = Returns a'
    /\ view_width a' = 5 /\ view_height a' = 3.
Proof.
  assert (Hl : exists a',
             loadGDAL (Array2D_new x00 GDT_Unknown) (Some raster_10x10)
               5 2 20 3 = Returns a')
    by (eexists; vm_compute; reflexivity).
  destruct Hl as [a' Hl]. exists a'. split; [exact Hl|].
  destruct (loadGDAL_window _ _ 5 2 20 3 a' Hl) as (Hw & Hh & _);
    try (vm_compute; split; discriminate); try (simpl; lia).
  split; [exact Hw|exact Hh].
Defined.

Section EmptyFile.
Context {T : Type} `{Elem T} `{NativeRepr T} `{!NativeReprLaws T}.
Implicit Type a : Array2D T.

Lemma stream_read_failed (n : nat) (old rest : list byte) :
  stream_read n old (mkIstream false rest) = (old, mkIstream false rest).
Proof. reflexivity. Qed.

Lemma read_int_failed (old : Z) (rest : list byte) :
  in_int old ->
  read_int old (mkIstream false rest) = (old, mkIstream false rest).
Proof.
  intros Hold. unfold read_int. rewrite stream_read_failed.
  rewrite int_of_to_bytes by exact Hold. reflexivity.
Qed.

Lemma read_int_empty (old : Z) :
  in_int old -> read_int old (mkIstream true []) = (old, mkIstream false []).
Proof.
  intros Hold. unfold read_int, stream_read. cbn [is_good is_rest].
  cbv zeta. rewrite take_nil. cbn [length app]. rewrite drop_0.
  rewrite int_of_to_bytes by exact Hold. reflexivity.
Qed.

Lemma read_T_failed (old : T) (rest : list byte) :
  read_T old (mkIstream false rest) = (old, mkIstream false rest).
Proof.
  unfold read_T. rewrite stream_read_failed, of_to_bytes. reflexivity.
Qed.

(** The row loop of [loadNative] on a failed stream stores back what the
    buffer holds. *)
Lemma loadNative_rows_failed (w : Z) (idx : list Z) (d : list T)
    (rest : list byte) :
  0 <= w ->
  (forall y, y ∈ idx ->
     0 <= int_mul y w /\ int_mul y w + w <= Z.of_nat (length d)) ->
  for_each idx
    (fun y '(d, fin) =>
       old ← vec_block d (int_mul y w) w;
       let '(bs, fin) :=
         stream_read (Z.to_nat w * sizeof_T) (encode_block old) fin in
       d ← vec_store_block d (int_mul y w) (decode_block (length old) bs);
       Returns (d, fin))
    (d, mkIstream false rest)
  = Returns (d, mkIstream false rest).
Proof.
  intros Hw. induction idx as [|y idx IH]; intros Hidx; [reflexivity|].
  cbn [for_each]. destruct (Hidx y ltac:(left)) as [Hlo Hhi].
  rewrite vec_block_in_range by lia. cbn [mbind outcome_bind].
  rewrite stream_read_failed.
  rewrite <- (app_nil_r (encode_block _)), decode_encode_block.
  unfold vec_store_block. rewrite length_take, length_drop.
  destruct (Z.leb_spec 0 (int_mul y w)); [|lia].
  match goal with
  | |- context [?u <=? ?v] => destruct (Z.leb_spec u v); [|lia]
  end.
  cbn [andb mbind outcome_bind].
  replace (Z.to_nat (int_mul y w)
           + Z.to_nat w `min` (length d - Z.to_nat (int_mul y w)))%nat
    with (Z.to_nat (int_mul y w) + Z.to_nat w)%nat by lia.
  rewrite <- drop_drop, take_drop, take_drop.
  apply IH. intros z Hz. apply Hidx. right. exact Hz.
Qed.
End EmptyFile.

(** X19. Loading an empty file does not fail: no field is read, and the
    array is resized to the view extents it already had, filled with
    [T()]. *)
Theorem loadNative_empty_file {T : Type} `{Elem T} `{NativeRepr T}
    `{!NativeReprLaws T} (a : Array2D T) :
  header_ok a -> view_ok a ->
  loadNative a (Some [])
  = resize a (view_width a) (view_height a) elem_default
  /\ exists a', loadNative a (Some []) = Returns a'
       /\ data a' = replicate (Z.to_nat (viewSize a)) elem_default
       /\ view_width a' = view_width a /\ view_height a' = view_height a
       /\ no_data a' = no_data a
       /\ num_data_cells a' = num_data_cells a.
Proof.
  intros (Hth & Htw & Hvh & Hvw & Hxo & Hyo & Hn) Hview.
  pose proof (viewSize_view_ok a Hview) as Hsize.
  assert (Hload : loadNative a (Some [])
                  = resize a (view_width a) (view_height a) elem_default).
  { unfold loadNative.
    rewrite read_int_empty by assumption. cbv beta iota zeta.
    repeat (rewrite read_int_failed by assumption; cbv beta iota zeta).
    rewrite read_T_failed. cbv beta iota zeta.
    destruct a as [fn bn gt pr d dt th tw vh vw xo yo n nd].
    cbn [view_width view_height total_width total_height view_xoff
         view_yoff num_data_cells no_data set_total_height set_total_width
         set_view_height set_view_width set_view_xoff set_view_yoff
         set_num_data_cells set_no_data filename basename geotransform
         projection data data_type] in *.
    unfold resize.
    destruct (Z.ltb_spec (int_mul vw vh) 0); [reflexivity|].
    cbv zeta. cbn [mbind outcome_bind].
    cbn [view_width view_height data set_total_height set_total_width
         set_view_height set_view_width set_data filename basename
         geotransform projection data_type total_width total_height
         view_xoff view_yoff num_data_cells no_data].
    rewrite loadNative_rows_failed.
    - reflexivity.
    - apply Hview.
    - intros y Hy. apply elem_of_seqZ in Hy.
      rewrite length_replicate.
      unfold viewSize in Hsize. cbn [view_width view_height] in Hsize.
      rewrite Hsize.
      destruct (row_offset
                  (mkArray2D fn bn gt pr d dt th tw vh vw xo yo n nd) y
                  Hview) as (Ho & Hlo & Hhi); [cbn; lia|].
      cbn [view_width view_height] in Ho, Hlo, Hhi. rewrite Ho.
      destruct Hview as (? & ? & ?). cbn [view_width view_height] in *.
      nia. }
  split; [exact Hload|]. rewrite Hload.
  destruct (resize_returns a (view_width a) (view_height a) elem_default)
    as [a' Hr].
  { fold (viewSize a). rewrite Hsize. destruct Hview as (? & ? & ?). nia. }
  exists a'. split; [exact Hr|].
  apply resize_inv in Hr as [_ ->]. repeat split.
Qed.

Lemma loadNative_empty_file_witness :
  loadNative window_2x1 (Some [])
  = resize window_2x1 (view_width window_2x1) (view_height window_2x1)
      elem_default.
Proof.
  apply (loadNative_empty_file window_2x1).
  - vm_compute. repeat split; discriminate.
  - vm_compute. repeat split; discriminate.
Defined.

Section RasterRows.
Context {T : Type} `{Elem T}.
Implicit Type a : Array2D T.

(** The rows [yOffset+m], ..., [yOffset+m+k-1] as [loadGDAL] stores them
    over the freshly allocated cells [junk]. *)
Lemma loadGDAL_rows (fin : GDALDataset T) (xOffset yOffset w : Z)
    (k m : nat) (done junk d' : list T) :
  0 <= w -> (Z.of_nat m + Z.of_nat k) * w <= INT_MAX ->
  Z.of_nat m + Z.of_nat k <= INT_MAX ->
  length done = (m * Z.to_nat w)%nat ->
  length junk = (k * Z.to_nat w)%nat ->
  (forall y row, gd_read_row fin xOffset y w = Some row ->
                 length row = Z.to_nat w) ->
  for_each (seqZ (yOffset + Z.of_nat m) (Z.of_nat k))
    (fun y d =>
       match gd_read_row fin xOffset y w with
       | Some row => vec_store_block d (int_mul (int_sub y yOffset) w) row
       | None => Throws "Error reading file with GDAL!"
       end)
    (done ++ junk) = Returns d' ->
  exists rows,
    d' = done ++ concat rows
    /\ Forall2 (fun y row => gd_read_row fin xOffset y w = Some row)
         (seqZ (yOffset + Z.of_nat m) (Z.of_nat k)) rows.
Proof.
  intros Hw. revert m done junk.
  induction k as [|k IH]; intros m done junk Hmax Hk Hdone Hjunk Hrow.
  - destruct junk; [|discriminate]. cbn. intros [= <-].
    exists []. split; [reflexivity|constructor].
  - rewrite seqZ_cons by lia. cbn [for_each].
    destruct (gd_read_row fin xOffset (yOffset + Z.of_nat m) w)
      as [row|] eqn:Er; [|discriminate].
    pose proof (Hrow _ _ Er) as Hlen.
    set (wn := Z.to_nat w) in *.
    assert (Hoff : int_mul (int_sub (yOffset + Z.of_nat m) yOffset) w
                   = Z.of_nat m * w).
    { replace (int_sub (yOffset + Z.of_nat m) yOffset) with (Z.of_nat m).
      - apply int_mul_id. unfold in_int, INT_MIN, INT_MAX in *. nia.
      - unfold int_sub. replace (yOffset + Z.of_nat m - yOffset)
          with (Z.of_nat m) by lia.
        symmetry. apply wrap_int_id. unfold in_int, INT_MIN, INT_MAX in *.
        lia. }
    assert (Hoffn : Z.to_nat (Z.of_nat m * w) = (m * wn)%nat).
    { unfold wn. rewrite Z2Nat.inj_mul, Nat2Z.id by lia. reflexivity. }
    rewrite Hoff. cbn [Nat.mul] in Hjunk.
    rewrite <- (take_drop wn junk).
    assert (Hj1 : length (take wn junk) = wn) by (rewrite length_take; lia).
    assert (Hj2 : length (drop wn junk) = (k * wn)%nat)
      by (rewrite length_drop; lia).
    generalize dependent (take wn junk). intros j1 Hj1.
    generalize dependent (drop wn junk). intros j2 Hj2.
    unfold vec_store_block.
    destruct (Z.leb_spec 0 (Z.of_nat m * w)); [|nia].
    destruct (Z.leb_spec (Z.of_nat m * w + Z.of_nat (length row))
                (Z.of_nat (length (done ++ j1 ++ j2))));
      [|rewrite !length_app in *; unfold wn in *; nia].
    cbn [andb mbind outcome_bind]. rewrite Hoffn.
    rewrite take_app_length' by (symmetry; exact Hdone).
    replace (m * wn + length row)%nat with (length (done ++ j1))
      by (rewrite length_app; lia).
    rewrite (app_assoc done j1 j2), drop_app_length.
    replace (Z.succ (yOffset + Z.of_nat m))
      with (yOffset + Z.of_nat (S m)) by lia.
    replace (Z.pred (Z.of_nat (S k))) with (Z.of_nat k) by lia.
    rewrite (app_assoc done row j2). intros Hloop.
    destruct (IH (S m) (done ++ row) j2) as (rows & -> & Hrows);
      try assumption; try lia.
    + rewrite length_app. cbn [Nat.mul]. lia.
    + exists (row :: rows). split.
      * cbn [concat]. rewrite <- app_assoc. reflexivity.
      * constructor; assumption.
Qed.

(** The rows of the buffer that [saveGDAL] hands to the raster library. *)
Lemma saveGDAL_rows_spec a (row_ok : Z -> bool) (idx : list Z)
    (rows0 : list (list T)) :
  elem_ctype <> c_other -> buffer_ok a -> view_ok a ->
  (forall y, y ∈ idx -> 0 <= y < view_height a) ->
  for_each idx
    (fun y rows =>
       row ← vec_block (data a) (int_mul y (view_width a)) (view_width a);
       _ ← myGDALType;
       if row_ok y then Returns (rows ++ [row])
       else Throws "Error saving file with GDAL!")
    rows0
  = if forallb row_ok idx
    then Returns
           (rows0
            ++ ((fun y => take (Z.to_nat (view_width a))
                            (drop (Z.to_nat (y * view_width a)) (data a)))
                  <$> idx))
    else Throws "Error saving file with GDAL!".
Proof.
  intros Hty Hbuf Hview.
  assert (Hg : exists ty, myGDALType = Returns ty).
  { unfold myGDALType. destruct elem_ctype; try contradiction; cbn; eauto. }
  destruct Hg as [ty Hg].
  unfold buffer_ok in Hbuf. rewrite viewSize_view_ok in Hbuf by exact Hview.
  match goal with |- context [for_each _ ?b _] => set (body := b) end.
  assert (Hbody : forall y rows,
            body y rows
            = (row ← vec_block (data a) (int_mul y (view_width a))
                       (view_width a);
               _ ← myGDALType;
               if row_ok y then Returns (rows ++ [row])
               else Throws "Error saving file with GDAL!"))
    by reflexivity.
  clearbody body.
  revert rows0. induction idx as [|y idx IH]; intros rows0 Hidx.
  - cbn. rewrite app_nil_r. reflexivity.
  - cbn [for_each forallb]. rewrite Hbody, Hg.
    destruct (row_offset a y Hview) as (-> & Hlo & Hhi);
      [apply Hidx; left|].
    rewrite vec_block_in_range by (destruct Hview; lia).
    cbn [mbind outcome_bind].
    destruct (row_ok y); cbn [andb mbind outcome_bind]; [|reflexivity].
    rewrite IH by (intros z Hz; apply Hidx; right; exact Hz).
    rewrite fmap_cons, <- app_assoc. reflexivity.
Qed.

Lemma concat_rows (d : list T) (w : Z) (k m : nat) :
  0 <= w ->
  concat ((fun y : Z => take (Z.to_nat w) (drop (Z.to_nat (y * w)) d))
            <$> seqZ (Z.of_nat m) (Z.of_nat k))
  = take (k * Z.to_nat w) (drop (m * Z.to_nat w) d).
Proof.
  intros Hw. revert m. induction k as [|k IH]; intros m.
  - reflexivity.
  - rewrite seqZ_cons by lia. rewrite fmap_cons. cbn [concat].
    replace (Z.succ (Z.of_nat m)) with (Z.of_nat (S m)) by lia.
    replace (Z.pred (Z.of_nat (S k))) with (Z.of_nat k) by lia.
    rewrite IH.
    replace (Z.to_nat (Z.of_nat m * w)) with (m * Z.to_nat w)%nat
      by (rewrite Z2Nat.inj_mul, Nat2Z.id by lia; reflexivity).
    replace (S m * Z.to_nat w)%nat with (m * Z.to_nat w + Z.to_nat w)%nat
      by lia.
    rewrite <- drop_drop, take_take_drop. reflexivity.
Qed.
End RasterRows.

(** X20. A [loadGDAL] that completes on a dataset whose row reads answer
    rows of the view width leaves the geotransform, projection, band type
    and no-data value of the dataset in the array, keeps the cached count,
    and fills the buffer with the rows read at [yOffset], [yOffset+1], ...,
    one after the other. *)
Theorem loadGDAL_content {T : Type} `{Elem T} (a : Array2D T)
    (fin : GDALDataset T) (xOffset yOffset part_width part_height : Z)
    (a' : Array2D T) :
  loadGDAL a (Some fin) xOffset yOffset part_width part_height = Returns a' ->
  view_ok a' -> in_int (yOffset + view_height a') ->
  (forall y row, gd_read_row fin xOffset y (view_width a') = Some row ->
                 length row = Z.to_nat (view_width a')) ->
  (exists gt, gd_geotransform fin = Some gt
              /\ geotransform a' = gt_list gt)
  /\ projection a' = gd_projection fin
  /\ data_type a' = gd_band_type fin
  /\ no_data a' = gd_nodata fin
  /\ num_data_cells a' = num_data_cells a
  /\ exists rows,
       data a' = concat rows
       /\ Forall2
            (fun y row =>
               gd_read_row fin xOffset y (view_width a') = Some row)
            (seqZ yOffset (view_height a')) rows.
Proof.
  unfold loadGDAL.
  destruct (negb (empty a)); [discriminate|].
  destruct (Z.geb_spec xOffset 0); cbn [negb]; [|discriminate].
  destruct (Z.geb_spec yOffset 0); cbn [negb]; [|discriminate].
  destruct (gd_geotransform fin) as [gt|]; [|discriminate].
  cbv zeta.
  destruct (resize _ _ _ _) as [a1| | |] eqn:Er; cbn [mbind outcome_bind];
    try discriminate.
  destruct (for_each _ _ _) as [d| | |] eqn:El; cbn [mbind outcome_bind];
    try discriminate.
  intros [= <-] Hview Hsum Hrow.
  pose proof (resize_buffer_ok _ _ _ _ _ Er) as Hbuf.
  apply resize_inv in Er as [_ Ea1].
  change (view_width (set_data a1 d)) with (view_width a1) in *.
  change (view_height (set_data a1 d)) with (view_height a1) in *.
  assert (Hview1 : view_ok a1) by exact Hview.
  pose proof (viewSize_view_ok a1 Hview1) as Hsize.
  unfold buffer_ok in Hbuf. rewrite Hsize in Hbuf.
  destruct Hview1 as (Hw & Hh & Hmax).
  split; [exists gt; split; [reflexivity|rewrite Ea1; reflexivity]|].
  split; [rewrite Ea1; reflexivity|].
  split; [rewrite Ea1; reflexivity|].
  split; [rewrite Ea1; reflexivity|].
  split; [rewrite Ea1; reflexivity|].
  rewrite int_add_id in El by exact Hsum.
  replace (yOffset + view_height a1 - yOffset) with (view_height a1)
    in El by lia.
  destruct (loadGDAL_rows fin xOffset yOffset (view_width a1)
              (Z.to_nat (view_height a1)) 0 [] (data a1) d)
    as (rows & -> & Hrows); try assumption.
  - rewrite Z2Nat.id by lia. cbn [Z.of_nat]. lia.
  - rewrite Z2Nat.id by lia. unfold in_int, INT_MAX in *. cbn [Z.of_nat].
    lia.
  - reflexivity.
  - rewrite <- Z2Nat.inj_mul by lia. apply Nat2Z.inj.
    rewrite Z2Nat.id by nia. lia.
  - cbn [app Z.of_nat]. rewrite Z.add_0_r, Z2Nat.id by lia. exact El.
  - exists rows. split; [reflexivity|].
    cbn [Z.of_nat] in Hrows. rewrite Z.add_0_r, Z2Nat.id in Hrows by lia.
    exact Hrows.
Qed.

Lemma loadGDAL_content_witness :
  exists a' rows,
    loadGDAL (Array2D_new x00 GDT_Unknown) (Some raster_10x10) 5 2 20 3
    = Returns a'
    /\ data a' = concat rows
    /\ Forall2
         (fun y row =>
            gd_read_row raster_10x10 5 y (view_width a') = Some row)
         (seqZ 2 (view_height a')) rows.
Proof.
  assert (Hl : exists a',
             loadGDAL (Array2D_new x00 GDT_Unknown) (Some raster_10x10)
               5 2 20 3 = Returns a'
             /\ view_width a' = 5 /\ view_height a' = 3)
    by (eexists; split; [vm_compute; reflexivity|split; reflexivity]).
  destruct Hl as (a' & Hl & Hw & Hh).
  destruct (loadGDAL_content _ _ 5 2 20 3 a' Hl)
    as (_ & _ & _ & _ & _ & rows & Hd & Hrows).
  - unfold view_ok. rewrite Hw, Hh. vm_compute. repeat split; discriminate.
  - rewrite Hh. vm_compute. split; discriminate.
  - intros y row. rewrite Hw. cbn.
    destruct (_ && _); [|discriminate]. intros [= <-]. reflexivity.
  - exists a', rows. split; [exact Hl|]. split; assumption.
Defined.

(** X21. On a consistent, georeferenced array of a supported type, with
    the driver and the dataset there, [saveGDAL] throws when some row write
    fails; otherwise the dataset has the view extents, the pixel type of
    [T], the sentinel and the projection of the array, and its rows are the
    consecutive blocks of [view_width] cells of the buffer, whatever the
    offsets. *)
Theorem saveGDAL_dataset {T : Type} `{Elem T} (a : Array2D T)
    (row_ok : Z -> bool) (xoffset yoffset : Z) (g0 g1 g2 g3 g4 g5 : double) :
  geotransform a = [g0; g1; g2; g3; g4; g5] ->
  elem_ctype <> c_other -> buffer_ok a -> view_ok a ->
  (forallb row_ok (seqZ 0 (view_height a)) = false ->
   saveGDAL a true true row_ok xoffset yoffset
   = Throws "Error saving file with GDAL!")
  /\ (forallb row_ok (seqZ 0 (view_height a)) = true ->
      exists out,
        saveGDAL a true true row_ok xoffset yoffset = Returns out
        /\ out_width out = view_width a /\ out_height out = view_height a
        /\ NativeTypeToGDAL elem_ctype = Returns (out_type out)
        /\ out_nodata out = no_data a
        /\ out_projection out = projection a
        /\ out_rows out
           = ((fun y => take (Z.to_nat (view_width a))
                          (drop (Z.to_nat (y * view_width a)) (data a)))
                <$> seqZ 0 (view_height a))
        /\ concat (out_rows out) = data a).
Proof.
  intros Hgt Hty Hbuf Hview.
  assert (Hsave :
    saveGDAL a true true row_ok xoffset yoffset
    = (ty ← myGDALType;
       if forallb row_ok (seqZ 0 (view_height a))
       then Returns
              (mkGDALOutput (viewWidth a) (viewHeight a) ty (no_data a)
                 [PrimFloat.add g0
                    (PrimFloat.mul (double_of_int xoffset) g1); g1; g2;
                  PrimFloat.add g3
                    (PrimFloat.mul (double_of_int yoffset) g5); g4; g5]
                 (projection a)
                 ((fun y => take (Z.to_nat (view_width a))
                              (drop (Z.to_nat (y * view_width a)) (data a)))
                    <$> seqZ 0 (view_height a)))
       else Throws "Error saving file with GDAL!")).
  { unfold saveGDAL. rewrite Hgt.
    rewrite (saveGDAL_rows_spec a row_ok (seqZ 0 (view_height a)) [] Hty
               Hbuf Hview)
      by (intros y Hy; apply elem_of_seqZ in Hy; lia).
    cbn [negb app]. destruct myGDALType as [ty| | |]; cbn; try reflexivity.
    destruct (forallb row_ok (seqZ 0 (view_height a))); reflexivity. }
  rewrite Hsave. unfold myGDALType.
  split; intros ->.
  - destruct elem_ctype; try contradiction; reflexivity.
  - assert (Hcat :
      concat ((fun y => take (Z.to_nat (view_width a))
                          (drop (Z.to_nat (y * view_width a)) (data a)))
                <$> seqZ 0 (view_height a)) = data a).
    { pose proof (concat_rows (data a) (view_width a)
                    (Z.to_nat (view_height a)) 0) as Hc.
      destruct Hview as (Hw & Hh & Hmax).
      rewrite Z2Nat.id in Hc by exact Hh. change (Z.of_nat 0) with 0 in Hc.
      rewrite Hc by exact Hw. rewrite drop_0. apply take_ge.
      unfold buffer_ok in Hbuf.
      rewrite viewSize_view_ok in Hbuf by (repeat split; assumption).
      nia. }
    destruct elem_ctype; try contradiction; cbn;
      eexists; (split; [reflexivity|]); repeat split; exact Hcat.
Qed.

Lemma saveGDAL_dataset_witness :
  exists out,
    saveGDAL georef_example true true (fun _ => true) 3 4 = Returns out
    /\ concat (out_rows out) = data georef_example.
Proof.
  destruct (saveGDAL_dataset georef_example (fun _ => true) 3 4
              10%float 2%float 0%float 20%float 0%float (-3)%float)
    as [_ Hok].
  - reflexivity.
  - discriminate.
  - reflexivity.
  - vm_compute. repeat split; discriminate.
  - destruct Hok as (out & Hs & _ & _ & _ & _ & _ & _ & Hc);
      [reflexivity|].
    exists out. split; assumption.
Defined.

(** X22. [resize(other, val)] on an array [other] with a sound view makes
    a companion of the same view extents filled with [val] and takes the
    geotransform of [other]; the sentinel, the projection and the offsets
    stay those of the resized array. *)
Theorem resize_like_companion {T U : Type} `{Elem T} (a : Array2D T)
    (other : Array2D U) (val : T) :
  view_ok other ->
  exists a', resize_like a other val = Returns a'
    /\ view_width a' = view_width other
    /\ view_height a' = view_height other
    /\ total_width a' = view_width other
    /\ total_height a' = view_height other
    /\ geotransform a' = geotransform other
    /\ data a' = replicate (Z.to_nat (viewSize other)) val
    /\ buffer_ok a'
    /\ no_data a' = no_data a
    /\ projection a' = projection a
    /\ view_xoff a' = view_xoff a /\ view_yoff a' = view_yoff a.
Proof.
  intros Hview. pose proof (viewSize_view_ok other Hview) as Hsize.
  destruct Hview as (Hw & Hh & Hmax). unfold resize_like.
  destruct (resize_returns a (view_width other) (view_height other) val)
    as [a1 Hr]; [fold (viewSize other); nia|].
  rewrite Hr. cbn [mbind outcome_bind].
  pose proof (resize_buffer_ok _ _ _ _ _ Hr) as Hbuf.
  eexists. split; [reflexivity|].
  apply resize_inv in Hr as [_ Ea].
  repeat match goal with
         | |- buffer_ok _ /\ _ => split; [exact Hbuf|]
         | |- _ /\ _ => split; [rewrite Ea; reflexivity|]
         end.
  rewrite Ea. reflexivity.
Qed.

Lemma resize_like_companion_witness :
  exists a' : Array2D int32_t,
    resize_like counted_int32 georef_example 7 = Returns a'
    /\ geotransform a' = geotransform georef_example
    /\ data a' = replicate (Z.to_nat (viewSize georef_example)) 7.
Proof.
  destruct (resize_like_companion counted_int32 georef_example 7)
    as (a' & Hr & _ & _ & _ & _ & Hg & Hd & _).
  - vm_compute. repeat split; discriminate.
  - exists a'. split; [exact Hr|]. split; [exact Hg|exact Hd].
Defined.

(** X23. The file of a consistent array is the seven [int] fields
    [total_height], [total_width], [view_height], [view_width],
    [view_xoff], [view_yoff], [num_data_cells], then [no_data], then the
    cells in the order of the buffer; neither the geotransform nor the
    projection takes part. *)
Theorem saveNative_layout {T : Type} `{Elem T} `{NativeRepr T}
    `{!NativeReprLaws T} (a : Array2D T) (g : list double) (p : string) :
  view_ok a -> buffer_ok a ->
  saveNative a true
  = Returns
      (int_to_bytes (total_height a) ++ int_to_bytes (total_width a)
       ++ int_to_bytes (view_height a) ++ int_to_bytes (view_width a)
       ++ int_to_bytes (view_xoff a) ++ int_to_bytes (view_yoff a)
       ++ int_to_bytes (num_data_cells a) ++ to_bytes (no_data a)
       ++ encode_block (data a))
  /\ saveNative (set_projection (set_geotransform a g) p) true
     = saveNative a true.
Proof.
  intros Hview Hbuf. split; [apply saveNative_bytes; assumption|reflexivity].
Qed.

Lemma saveNative_layout_witness :
  saveNative window_2x1 true
  = Returns
      (int_to_bytes (total_height window_2x1)
       ++ int_to_bytes (total_width window_2x1)
       ++ int_to_bytes (view_height window_2x1)
       ++ int_to_bytes (view_width window_2x1)
       ++ int_to_bytes (view_xoff window_2x1)
       ++ int_to_bytes (view_yoff window_2x1)
       ++ int_to_bytes (num_data_cells window_2x1)
       ++ to_bytes (no_data window_2x1)
       ++ encode_block (data window_2x1)).
Proof.
  destruct (saveNative_layout window_2x1 [] EmptyString) as [Hs _].
  - vm_compute. repeat split; discriminate.
  - reflexivity.
  - exact Hs.
Defined.

(** X24. An x offset beyond the dataset is not rejected by [loadGDAL]: the
    window gets the negative width [xsize - xOffset], and the load ends in
    the [std::length_error] of the allocation. *)
Theorem loadGDAL_offset_beyond_dataset {T : Type} `{Elem T}
    (a : Array2D T) (fin : GDALDataset T) (gt : GeoTransform)
    (xOffset yOffset part_width : Z) :
  data a = [] -> gd_geotransform fin = Some gt ->
  0 <= gd_xsize fin < xOffset -> 0 <= part_width ->
  0 <= yOffset < gd_ysize fin ->
  in_int (xOffset + part_width) -> in_int yOffset ->
  in_int ((gd_xsize fin - xOffset) * gd_ysize fin) ->
  in_int (gd_xsize fin - xOffset) ->
  loadGDAL a (Some fin) xOffset yOffset part_width 0
  = Throws "std::length_error".
Proof.
  intros Hd Hgt Hx Hpw Hy Hsum Hyo Hprod Hdiff.
  unfold loadGDAL, empty. rewrite Hd, Hgt. cbn [negb].
  destruct (Z.geb_spec xOffset 0); [|lia].
  destruct (Z.geb_spec yOffset 0); [|lia]. cbn [negb]. cbv zeta.
  cbn [total_width total_height set_no_data set_total_height
       set_total_width set_data_type set_projection set_geotransform
       set_view_width set_view_height set_view_xoff set_view_yoff
       view_width view_height].
  rewrite !int_add_id, !int_sub_id
    by (rewrite ?Z.add_0_r; assumption).
  rewrite Z.add_0_r.
  destruct (Z.geb_spec (xOffset + part_width) (gd_xsize fin)); [|lia].
  destruct (Z.geb_spec yOffset (gd_ysize fin)); [lia|].
  destruct (Z.eqb_spec (gd_xsize fin - xOffset) 0); [lia|].
  cbn [Z.eqb]. unfold resize.
  rewrite int_mul_id by exact Hprod.
  destruct (Z.ltb_spec ((gd_xsize fin - xOffset) * gd_ysize fin) 0);
    [reflexivity|nia].
Qed.

Lemma loadGDAL_offset_beyond_dataset_witness :
  loadGDAL (Array2D_new x00 GDT_Unknown) (Some raster_10x10) 12 0 4 0
  = Throws "std::length_error".
Proof.
  apply (loadGDAL_offset_beyond_dataset (Array2D_new x00 GDT_Unknown)
           raster_10x10
           (mkGeoTransform 0%float 1%float 0%float 0%float 0%float 1%float)
           12 0 4);
    try reflexivity; try (vm_compute; split; discriminate);
    try (simpl; lia).
Defined.
